(** * Lumi: editor extension, webview renderer and chat relay

    A shallow embedding of the three pieces of the Lumi integration layer:

    - [src/extension.ts]: the start command, the handlers attached to the
      backend process, the panel controller [createOrShowWebviewPanel] and the
      renderer [getWebviewContent];
    - the React component [App] of the webview (its [handleSend]).

    JavaScript strings are sequences of UTF-16 code units; module-level
    variables and closure variables become fields of an explicit state that
    every handler transforms; the calls made to the editor API and to the
    operating system are recorded in a log. *)

From Stdlib Require Import NArith List Bool String Ascii Lia.
From stdpp Require Import base option list gmap.

Open Scope N_scope.
Open Scope list_scope.

(** ** JavaScript strings *)

Module Js.

(** A string is a list of UTF-16 code units. *)
Definition jsstring : Type := list N.

(** An ASCII literal as a JavaScript string. *)
Definition str (s : string) : jsstring :=
  List.map N_of_ascii (list_ascii_of_string s).

Definition quote : N := 34.
Definition dollar : N := 36.

(** [s.startsWith(p)] *)
Fixpoint startsWith (p s : jsstring) : bool :=
  match p, s with
  | [], _ => true
  | _ :: _, [] => false
  | a :: p', b :: s' => (a =? b) && startsWith p' s'
  end.

(** [s.includes(needle)] *)
Fixpoint includes (s needle : jsstring) : bool :=
  startsWith needle s ||
  match s with
  | [] => false
  | _ :: s' => includes s' needle
  end.

(** The remainder of [s] after the prefix [p], when [s] starts with [p]. *)
Fixpoint stripPrefix (p s : jsstring) : option jsstring :=
  match p, s with
  | [], _ => Some s
  | _ :: _, [] => None
  | a :: p', b :: s' => if a =? b then stripPrefix p' s' else None
  end.

(** ECMAScript LineTerminator code points: LF, CR, LS, PS. *)
Definition isLineTerminator (c : N) : bool :=
  (c =? 10) || (c =? 13) || (c =? 8232) || (c =? 8233).

(** ECMAScript WhiteSpace code points (TAB, VT, FF, SP, NBSP, ZWNBSP and the
    space separators of Unicode); all of them are single code units. *)
Definition isWhiteSpace (c : N) : bool :=
  (c =? 9) || (c =? 11) || (c =? 12) || (c =? 32) || (c =? 160) ||
  (c =? 5760) || ((8192 <=? c) && (c <=? 8202)) ||
  (c =? 8239) || (c =? 8287) || (c =? 12288) || (c =? 65279).

(** What [String.prototype.trim] strips. *)
Definition isTrimmed (c : N) : bool := isWhiteSpace c || isLineTerminator c.

Fixpoint trimStart (s : jsstring) : jsstring :=
  match s with
  | [] => []
  | c :: s' => if isTrimmed c then trimStart s' else s
  end.

Definition trimEnd (s : jsstring) : jsstring := rev (trimStart (rev s)).

Definition trim (s : jsstring) : jsstring := trimEnd (trimStart s).

Definition isDigit (c : N) : bool := (48 <=? c) && (c <=? 57).
Definition digitValue (c : N) : nat := N.to_nat (c - 48).

(** The index of the first occurrence of [needle] in [s], with the text
    before it and the text after it. *)
Fixpoint splitAtFirst (needle s : jsstring) : option (jsstring * jsstring) :=
  match stripPrefix needle s with
  | Some rest => Some ([], rest)
  | None =>
      match s with
      | [] => None
      | c :: s' =>
          match splitAtFirst needle s' with
          | Some (before, after) => Some (c :: before, after)
          | None => None
          end
      end
  end.

(** *** GetSubstitution

    The expansion of a replacement template, as [String.prototype.replace]
    performs it when no named groups exist: [$$], [$&], [$`], [$'] and the
    numbered references [$n] and [$nn]; every other [$] stands for itself. *)
Section GetSubstitution.
Variable matched : jsstring.
Variable before : jsstring.
Variable after : jsstring.
Variable captures : list jsstring.

Definition capture (index : nat) : option jsstring :=
  match index with
  | O => None
  | S i => nth_error captures i
  end.

Fixpoint GetSubstitution (template : jsstring) : jsstring :=
  match template with
  | [] => []
  | c :: t =>
      if negb (c =? dollar) then c :: GetSubstitution t
      else
        match t with
        | [] => [c]
        | d :: t' =>
            if d =? dollar then dollar :: GetSubstitution t'
            else if d =? 38 then matched ++ GetSubstitution t'
            else if d =? 96 then before ++ GetSubstitution t'
            else if d =? 39 then after ++ GetSubstitution t'
            else if isDigit d then
              let one :=
                match capture (digitValue d) with
                | Some g => g ++ GetSubstitution t'
                | None => c :: d :: GetSubstitution t'
                end in
              match t' with
              | e :: t'' =>
                  if isDigit e then
                    let index := (10 * digitValue d + digitValue e)%nat in
                    if (length captures <? index)%nat then one
                    else
                      match capture index with
                      | Some g => g ++ GetSubstitution t''
                      | None => c :: d :: e :: GetSubstitution t''
                      end
                  else one
              | [] => one
              end
            else c :: GetSubstitution t
        end
  end.
End GetSubstitution.

(** The lines of a text: what [s.split] gives at the line feeds. *)
Fixpoint splitLines (s : jsstring) : list jsstring :=
  match s with
  | [] => [[]]
  | c :: rest =>
      if c =? 10 then [] :: splitLines rest
      else
        match splitLines rest with
        | l :: ls => (c :: l) :: ls
        | [] => [[c]]
        end
  end.

(** Whether a string has no dollar sign. *)
Definition dollarFree (s : jsstring) : bool :=
  forallb (λ c, negb (c =? dollar)) s.

End Js.

(** ** The Content Renderer: [getWebviewContent] *)

Module Renderer.
Import Js.

(** *** The global pattern of the asset references

    An attribute name, [src] or [href], an equals sign, a double quote, the
    literal [./assets/], a lazy group of any code units but line terminators
    and the closing double quote. *)

(** The literal part of the pattern between the two groups: the equals sign,
    the opening quote and [./assets/]. *)
Definition assetsLiteral : jsstring := 61 :: quote :: str "./assets/".

(** The lazy group [(.*?)] followed by the closing quote: the shortest run of
    code units other than line terminators that a quote follows. Returns the
    captured run and the text after the quote. *)
Fixpoint lazyUntilQuote (s : jsstring) : option (jsstring * jsstring) :=
  match s with
  | [] => None
  | c :: s' =>
      if c =? quote then Some ([], s')
      else if isLineTerminator c then None
      else
        match lazyUntilQuote s' with
        | Some (name, rest) => Some (c :: name, rest)
        | None => None
        end
  end.

(** One alternative of the first group, then the rest of the pattern. *)
Definition matchAlternative (attr s : jsstring)
  : option (jsstring * jsstring * jsstring) :=
  match stripPrefix attr s with
  | None => None
  | Some r1 =>
      match stripPrefix assetsLiteral r1 with
      | None => None
      | Some r2 =>
          match lazyUntilQuote r2 with
          | None => None
          | Some (name, rest) => Some (attr, name, rest)
          end
      end
  end.

(** A match of the pattern at the start of [s]: the two captures and the
    text after the match. The alternatives are tried in order. *)
Definition matchAt (s : jsstring) : option (jsstring * jsstring * jsstring) :=
  match matchAlternative (str "src") s with
  | Some m => Some m
  | None => matchAlternative (str "href") s
  end.

(** The text a match covers. *)
Definition matchedText (attr name : jsstring) : jsstring :=
  attr ++ assetsLiteral ++ name ++ [quote].

(** [html.replace(pattern, template)] with the global pattern above: matches
    are looked for from left to right, each search resuming where the
    previous match ended. [before] is the text already scanned. *)
Fixpoint replaceAssets_from (fuel : nat) (template before s : jsstring)
  : jsstring :=
  match fuel with
  | O => s
  | S fuel' =>
      match matchAt s with
      | Some (attr, name, rest) =>
          let matched := matchedText attr name in
          GetSubstitution matched before rest [attr; name] template
            ++ replaceAssets_from fuel' template (before ++ matched) rest
      | None =>
          match s with
          | [] => []
          | c :: s' => c :: replaceAssets_from fuel' template (before ++ [c]) s'
          end
      end
  end.

Definition replaceAssets (template html : jsstring) : jsstring :=
  replaceAssets_from (S (length html)) template [] html.

(** [html.replace(pattern, template)] with a string pattern: only the first
    occurrence is replaced. *)
Definition replaceFirst (pattern template html : jsstring) : jsstring :=
  match splitAtFirst pattern html with
  | None => html
  | Some (before, after) =>
      before ++ GetSubstitution pattern before after [] template ++ after
  end.

(** *** The templates of [getWebviewContent] *)

Definition line (indent : nat) (s : jsstring) : jsstring :=
  repeat 32 indent ++ s ++ [10].

(** What the renderer reads from its surroundings: the content of
    [index.html] ([None] when the file does not exist; a file that exists
    is taken to be readable), the file-system path of that file, the string
    form of [webview.asWebviewUri(buildPath)] and [webview.cspSource]. *)
Record RenderEnv := {
  indexHtml : option jsstring;
  htmlPath : jsstring;
  baseUri : jsstring;
  cspSource : jsstring
}.

Definition notFoundDocument (path : jsstring) : jsstring :=
  str "<html><body><h1>Error</h1><p>Failed to load webview content. File not found: "
    ++ path ++ str "</p></body></html>".

Definition csp (env : RenderEnv) : jsstring :=
  [10]
  ++ line 8 (str "<meta http-equiv=" ++ [quote] ++ str "Content-Security-Policy"
             ++ [quote] ++ str " content=" ++ [quote])
  ++ line 12 (str "default-src 'none';")
  ++ line 12 (str "style-src " ++ cspSource env ++ str " 'unsafe-inline';")
  ++ line 12 (str "script-src " ++ cspSource env ++ str " 'unsafe-inline';")
  ++ line 12 (str "img-src " ++ cspSource env ++ str " data:;")
  ++ line 12 (str "font-src " ++ cspSource env ++ str ";")
  ++ line 12 (str "connect-src http://localhost:8000;")
  ++ line 12 (str "base-uri " ++ baseUri env ++ str "/;")
  ++ line 8 (quote :: str ">")
  ++ repeat 32 4%nat.

(** The replacement template: [$1], an equals sign, a quote, the base URI,
    [/assets/$2] and a quote. *)
Definition assetTemplate (base : jsstring) : jsstring :=
  str "$1=" ++ [quote] ++ base ++ str "/assets/$2" ++ [quote].

Definition headTemplate (env : RenderEnv) : jsstring :=
  line 0 (str "<head>")
  ++ line 8 (str "<meta charset=" ++ [quote] ++ str "UTF-8" ++ [quote] ++ str ">")
  ++ line 8 (str "<meta name=" ++ [quote] ++ str "viewport" ++ [quote]
             ++ str " content=" ++ [quote]
             ++ str "width=device-width, initial-scale=1.0" ++ [quote] ++ str ">")
  ++ line 8 (str "<base href=" ++ [quote] ++ baseUri env ++ str "/" ++ [quote]
             ++ str ">")
  ++ line 8 (csp env)
  ++ repeat 32 8%nat.

Definition rewriteAssets (base html : jsstring) : jsstring :=
  replaceAssets (assetTemplate base) html.

Definition injectHead (env : RenderEnv) (html : jsstring) : jsstring :=
  replaceFirst (str "<head>") (headTemplate env) html.

Definition getWebviewContent (env : RenderEnv) : jsstring :=
  match indexHtml env with
  | None => notFoundDocument (htmlPath env)
  | Some html => injectHead env (rewriteAssets (baseUri env) html)
  end.

(** *** Documents with double-quoted asset references

    A document is described as a leading text and a list of segments, each
    an attribute [src] or [href] whose double-quoted value is [./assets/]
    and a name, followed by the text up to the next such attribute. *)

Inductive Attr := src | href.

Definition attrName (a : Attr) : jsstring :=
  match a with
  | src => str "src"
  | href => str "href"
  end.


(** A name has no double quote and no line terminator. *)
Definition validName (n : jsstring) : bool :=
  forallb (λ c, negb (c =? quote) && negb (isLineTerminator c)) n.

(** A text between references has no occurrence of the fixed part of the
    pattern: neither [src] nor [href] followed by [assetsLiteral]. *)
Definition plainText (t : jsstring) : bool :=
  negb (includes t (str "src" ++ assetsLiteral))
  && negb (includes t (str "href" ++ assetsLiteral)).


(** The reference as the document has it, and as it is rewritten. *)
Definition reference (a : Attr) (n : jsstring) : jsstring :=
  matchedText (attrName a) n.


(** What may follow a text: the end of the document or a reference. *)
Definition atReference (rest : jsstring) : Prop :=
  rest = [] ∨ ∃ a n r, rest = reference a n ++ r.



(** *** Sample documents *)

Definition sampleBase : jsstring :=
  str "https://file.vscode-cdn.net/ext/webview-ui/dist".

Definition sampleEnv (html : jsstring) : RenderEnv :=
  {| indexHtml := Some html;
     htmlPath := str "/ext/webview-ui/dist/index.html";
     baseUri := sampleBase;
     cspSource := str "https://*.vscode-cdn.net" |}.

(** An image whose attribute value is written between single quotes. *)
Definition singleQuotedDocument : jsstring :=
  str "<html><head></head><body><img src='./assets/logo.png'></body></html>".

(** A document with a head, and one whose head tag has an attribute. *)
Definition headedDocument : jsstring :=
  str "<!DOCTYPE html><html><head><title>Lumi</title></head><body><head></body></html>".

Definition headWithAttribute : jsstring :=
  str "<html><head lang='en'><title>Lumi</title></head><body></body></html>".



End Renderer.

(** ** The extension: [src/extension.ts] *)

Module Extension.
Import Js.

(** [vscode.ViewColumn] *)
Inductive ViewColumn :=
  | Active | Beside | One | Two | Three | Four | Five | Six | Seven | Eight | Nine.

(** The part of [vscode.TextEditor] the extension reads. *)
Record TextEditor := { viewColumn : option ViewColumn }.

(** The calls the extension makes to the editor and to the operating system.
    Worker processes and panels are named by their order of creation. Console
    output is not recorded. *)
Inductive Call :=
  | spawn (pid : nat)
  | kill (pid : nat)
  | createWebviewPanel (panel : nat) (column : ViewColumn)
  | setHtml (panel : nat) (html : jsstring)
  | reveal (panel : nat) (column : option ViewColumn)
  | dispose (panel : nat)
  | showErrorMessage (message : jsstring).

#[global] Instance ViewColumn_eq_dec : EqDecision ViewColumn.
Proof. solve_decision. Defined.
#[global] Instance Call_eq_dec : EqDecision Call.
Proof. solve_decision. Defined.

(** The two module-level variables [backendProcess] and [currentPanel], the
    closure variable [isBackendReady] of every spawn, and the surroundings:
    the worker processes whose events may still arrive, the panels that are
    open, whether the command is still registered, and the log of calls. *)
Record State := mkState {
  backendProcess : option nat;
  currentPanel : option nat;
  isBackendReady : gmap nat bool;
  liveWorkers : gset nat;
  openPanels : gset nat;
  spawned : nat;
  created : nat;
  commandRegistered : bool;
  calls : list Call
}.

(** What a handler reads from its surroundings when it runs. *)
Record Env := {
  exeExists : bool;
  activeTextEditor : option TextEditor;
  renderEnv : Renderer.RenderEnv
}.

Definition set_backendProcess (v : option nat) (s : State) : State :=
  mkState v (currentPanel s) (isBackendReady s) (liveWorkers s) (openPanels s)
    (spawned s) (created s) (commandRegistered s) (calls s).

Definition set_currentPanel (v : option nat) (s : State) : State :=
  mkState (backendProcess s) v (isBackendReady s) (liveWorkers s) (openPanels s)
    (spawned s) (created s) (commandRegistered s) (calls s).

Definition set_isBackendReady (pid : nat) (v : bool) (s : State) : State :=
  mkState (backendProcess s) (currentPanel s) (<[pid := v]> (isBackendReady s))
    (liveWorkers s) (openPanels s) (spawned s) (created s)
    (commandRegistered s) (calls s).

Definition set_liveWorkers (v : gset nat) (s : State) : State :=
  mkState (backendProcess s) (currentPanel s) (isBackendReady s) v (openPanels s)
    (spawned s) (created s) (commandRegistered s) (calls s).

Definition set_openPanels (v : gset nat) (s : State) : State :=
  mkState (backendProcess s) (currentPanel s) (isBackendReady s) (liveWorkers s) v
    (spawned s) (created s) (commandRegistered s) (calls s).

Definition set_commandRegistered (v : bool) (s : State) : State :=
  mkState (backendProcess s) (currentPanel s) (isBackendReady s) (liveWorkers s)
    (openPanels s) (spawned s) (created s) v (calls s).

Definition log (c : Call) (s : State) : State :=
  mkState (backendProcess s) (currentPanel s) (isBackendReady s) (liveWorkers s)
    (openPanels s) (spawned s) (created s) (commandRegistered s) (calls s ++ [c]).

(** The value of the closure variable of worker [pid]. *)
Definition ready (s : State) (pid : nat) : bool :=
  default false (isBackendReady s !! pid).

Definition isSpawn (c : Call) : bool :=
  match c with
  | spawn _ => true
  | _ => false
  end.

Definition isCreate (c : Call) : bool :=
  match c with
  | createWebviewPanel _ _ => true
  | _ => false
  end.

(** The calls made between state [s] and a later state [s']. *)
Definition emitted (s s' : State) : list Call :=
  drop (length (calls s)) (calls s').

(** *** The panel controller *)

(** The listener given to [currentPanel.onDidDispose]. *)
Definition onDidDispose (s : State) : State := set_currentPanel None s.

(** The editor closes a panel and fires its [onDidDispose] listeners, whether
    the user closed it or [dispose()] was called on it. *)
Definition panelDisposed (panel : nat) (s : State) : State :=
  onDidDispose (set_openPanels (openPanels s ∖ {[panel]}) s).

(** [currentPanel.dispose()] *)
Definition panel_dispose (panel : nat) (s : State) : State :=
  panelDisposed panel (log (dispose panel) s).

(** [vscode.window.activeTextEditor ? activeTextEditor.viewColumn : undefined] *)
Definition activeColumn (env : Env) : option ViewColumn :=
  match activeTextEditor env with
  | Some editor => viewColumn editor
  | None => None
  end.

(** [column || vscode.ViewColumn.One] *)
Definition columnOrOne (column : option ViewColumn) : ViewColumn :=
  match column with
  | Some c => c
  | None => One
  end.

Definition createOrShowWebviewPanel (env : Env) (s : State) : State :=
  let column := activeColumn env in
  match currentPanel s with
  | Some panel => log (reveal panel column) s
  | None =>
      let panel := created s in
      let s1 :=
        mkState (backendProcess s) (Some panel) (isBackendReady s) (liveWorkers s)
          (openPanels s ∪ {[panel]}) (spawned s) (S panel)
          (commandRegistered s)
          (calls s ++ [createWebviewPanel panel (columnOrOne column)]) in
      log (setHtml panel (Renderer.getWebviewContent (renderEnv env))) s1
  end.

(** *** The process supervisor *)

Definition readyMarker : jsstring := str "Application startup complete".

(** The test of the second conditional of the [stderr] listener. *)
Definition isErrorLine (message : jsstring) : bool :=
  (includes message (str "ERROR") || includes message (str "Warning"))
  && negb (includes message (str "INFO")).

(** The listener of [backendProcess.stderr] for worker [pid]. *)
Definition stderr_onData (pid : nat) (env : Env) (message : jsstring)
    (s : State) : State :=
  let s1 :=
    if includes message readyMarker && negb (ready s pid)
    then createOrShowWebviewPanel env (set_isBackendReady pid true s)
    else s in
  if isErrorLine message
  then log (showErrorMessage (str "Lumi Backend Error: " ++ message)) s1
  else s1.

(** The [exit] listener of a worker. *)
Definition onExit (code : option Z) (signal : option jsstring) (s : State)
  : State :=
  let s1 := set_backendProcess None s in
  match currentPanel s1 with
  | Some panel => panel_dispose panel s1
  | None => s1
  end.

(** The [error] listener of a worker. *)
Definition onError (errMessage : jsstring) (s : State) : State :=
  set_backendProcess None
    (log (showErrorMessage (str "Failed to start Lumi backend: " ++ errMessage)) s).

(** The handler of the command [lumi.start]. *)
Definition start (env : Env) (s : State) : State :=
  match currentPanel s with
  | Some panel => log (reveal panel (Some One)) s
  | None =>
      match backendProcess s with
      | None =>
          if negb (exeExists env)
          then log (showErrorMessage
                 (str "Lumi backend (lumi_backend.exe) not found. Extension might be corrupt.")) s
          else
            let pid := spawned s in
            mkState (Some pid) (currentPanel s)
              (<[pid := false]> (isBackendReady s))
              (liveWorkers s ∪ {[pid]}) (openPanels s) (S pid) (created s)
              (commandRegistered s) (calls s ++ [spawn pid])
      | Some _ => createOrShowWebviewPanel env s
      end
  end.

(** The [Disposable] that [activate] pushes first on the subscriptions. *)
Definition onDeactivate (s : State) : State :=
  let s1 :=
    match currentPanel s with
    | Some panel => panel_dispose panel s
    | None => s
    end in
  match backendProcess s1 with
  | Some pid => set_backendProcess None (log (kill pid) s1)
  | None => s1
  end.

(** *** Events *)

(** Why a worker emits [error]: it could not be launched, or it could not be
    killed. *)
Inductive ErrorCause := SpawnFailed | KillFailed.

Inductive Event :=
  | CmdStart (env : Env)
  | StderrData (pid : nat) (env : Env) (message : jsstring)
  | ProcessExit (pid : nat) (code : option Z) (signal : option jsstring)
  | ProcessError (pid : nat) (cause : ErrorCause) (errMessage : jsstring)
  | PanelClosed (panel : nat)
  | Deactivate.

(** The state once [activate] has returned. *)
Definition init : State := mkState None None ∅ ∅ ∅ 0 0 true [].

(** When an event can happen: the command while it is registered, the events
    of a worker while it lives (a failure to kill only once [kill] was
    called), the closing of a panel while it is open, and deactivation once. *)
Definition enabled (e : Event) (s : State) : bool :=
  match e with
  | CmdStart _ => commandRegistered s
  | StderrData pid _ _ => bool_decide (pid ∈ liveWorkers s)
  | ProcessExit pid _ _ => bool_decide (pid ∈ liveWorkers s)
  | ProcessError pid SpawnFailed _ => bool_decide (pid ∈ liveWorkers s)
  | ProcessError pid KillFailed _ =>
      bool_decide (pid ∈ liveWorkers s) && bool_decide (kill pid ∈ calls s)
  | PanelClosed panel => bool_decide (panel ∈ openPanels s)
  | Deactivate => commandRegistered s
  end.

(** The handler an event runs, with what the event changes around it. *)
Definition step (e : Event) (s : State) : State :=
  match e with
  | CmdStart env => start env s
  | StderrData pid env message => stderr_onData pid env message s
  | ProcessExit pid code signal =>
      onExit code signal (set_liveWorkers (liveWorkers s ∖ {[pid]}) s)
  | ProcessError pid SpawnFailed errMessage =>
      onError errMessage (set_liveWorkers (liveWorkers s ∖ {[pid]}) s)
  | ProcessError pid KillFailed errMessage => onError errMessage s
  | PanelClosed panel => panelDisposed panel s
  | Deactivate => set_commandRegistered false (onDeactivate s)
  end.

Fixpoint run (events : list Event) (s : State) : option State :=
  match events with
  | [] => Some s
  | e :: rest => if enabled e s then run rest (step e s) else None
  end.

(** The states of a session. *)
Definition reachable (s : State) : Prop :=
  ∃ events, run events init = Some s.

(** What holds in every state of a session: the open panels are the one
    [currentPanel] names; while the command is registered the live workers
    are the one [backendProcess] names, and afterwards there is no handle;
    no two workers live; [kill] is only called by the deactivation. *)
Record Inv (s : State) : Prop := {
  inv_panels : ∀ p, p ∈ openPanels s ↔ currentPanel s = Some p;
  inv_workers :
    commandRegistered s = true →
    ∀ p, p ∈ liveWorkers s ↔ backendProcess s = Some p;
  inv_unregistered : commandRegistered s = false → backendProcess s = None;
  inv_one_worker : ∀ p q, p ∈ liveWorkers s → q ∈ liveWorkers s → p = q;
  inv_killed : ∀ p, kill p ∈ calls s → commandRegistered s = false
}.

Definition isKill (c : Call) : bool :=
  match c with
  | kill _ => true
  | _ => false
  end.

(** The calls that create or reveal a panel. *)
Definition isPanelCall (c : Call) : bool :=
  match c with
  | createWebviewPanel _ _ | reveal _ _ => true
  | _ => false
  end.

(** The message shown when the executable is missing. *)
Definition missingBinary : Call :=
  showErrorMessage
    (str "Lumi backend (lumi_backend.exe) not found. Extension might be corrupt.").

(** Whether every panel creation of a log comes after a spawn; [seen] tells
    whether a spawn came before the log. *)
Fixpoint createdAfterSpawn (seen : bool) (cs : list Call) : bool :=
  match cs with
  | [] => true
  | c :: rest =>
      (negb (isCreate c) || seen) && createdAfterSpawn (seen || isSpawn c) rest
  end.

(** Every worker the state knows has been spawned, and every panel creation
    in the log comes after some spawn. *)
Record SpawnedFirst (s : State) : Prop := {
  known_spawned :
    ∀ q, backendProcess s = Some q ∨ q ∈ liveWorkers s → spawn q ∈ calls s;
  created_after_spawn : createdAfterSpawn false (calls s) = true
}.

(** The closure variables that exist and the workers that live belong to
    workers already spawned. *)
Definition closuresSpawned (s : State) : Prop :=
  (∀ p, is_Some (isBackendReady s !! p) → (p < spawned s)%nat)
  ∧ (∀ p, p ∈ liveWorkers s → (p < spawned s)%nat).

(** The worker is killed at most once, and not before the deactivation. *)
Definition killedOnce (s : State) : Prop :=
  (length (filter isKill (calls s)) ≤ 1)%nat
  ∧ (commandRegistered s = true → filter isKill (calls s) = []).

(** *** Sample surroundings and states *)

Definition sampleRender : Renderer.RenderEnv :=
  {| Renderer.indexHtml := None;
     Renderer.htmlPath := str "/ext/webview-ui/dist/index.html";
     Renderer.baseUri := str "https://file.vscode-cdn.net/ext/webview-ui/dist";
     Renderer.cspSource := str "https://*.vscode-cdn.net" |}.

(** The executable exists and no editor is active. *)
Definition noEditor : Env :=
  {| exeExists := true; activeTextEditor := None; renderEnv := sampleRender |}.

(** The executable exists and the active editor is in the second column. *)
Definition editorInTwo : Env :=
  {| exeExists := true;
     activeTextEditor := Some {| viewColumn := Some Two |};
     renderEnv := sampleRender |}.

(** The worker was started and has announced its readiness: a worker and a
    panel exist. *)
Definition readyState : State :=
  step (StderrData 0 noEditor readyMarker) (step (CmdStart noEditor) init).

(** The worker was started and has written nothing yet. *)
Definition workerStarted : State := step (CmdStart noEditor) init.

(** Two chunks of output: an informational line followed by an error line,
    and an error line that holds the readiness marker. *)
Definition errorLine : jsstring := str "ERROR:    Exception in ASGI application".

Definition infoThenError : jsstring :=
  str "INFO:     Waiting for application startup." ++ [10] ++ errorLine.

Definition errorWithMarker : jsstring :=
  str "ERROR:    Application startup complete".

(** The executable is missing. *)
Definition noExecutable : Env :=
  {| exeExists := false; activeTextEditor := None; renderEnv := sampleRender |}.

(** The command was invoked twice before the worker wrote anything. *)
Definition startedTwice : State :=
  step (CmdStart noEditor) (step (CmdStart noEditor) init).

(** The extension was deactivated while the worker and the panel existed. *)
Definition deactivatedState : State := step Deactivate readyState.

End Extension.

(** ** The chat relay: [handleSend] of the webview's [App] *)

Module Chat.
Import Js.

(** The Number values [JSON.parse] produces: plus or minus [mantissa] times
    two to the [exponent], or an infinity for a literal beyond the range. *)
Inductive JsNumber :=
  | finite (negative : bool) (mantissa : N) (exponent : Z)
  | infinite (negative : bool).

(** JavaScript values, as far as [JSON.parse] and member access produce
    them. *)
#[warnings="-register-all"] Inductive JsValue :=
  | undefined
  | null
  | boolean (b : bool)
  | number (n : JsNumber)
  | string (s : jsstring)
  | array (items : list JsValue)
  | object (fields : list (jsstring * JsValue)).

Inductive Role := user | bot.

(** [interface ChatMessage]; [results] is [None] when the entry has no such
    property. *)
Record ChatMessage := {
  role : Role;
  text : JsValue;
  results : option JsValue
}.

(** The state of the component, and the requests sent and not yet settled. *)
Record State := mkState {
  input : jsstring;
  messages : list ChatMessage;
  isLoading : bool;
  outstanding : list jsstring
}.

(** The entry the conversation starts with. Its text is not ASCII and is
    kept as its code units. *)
Definition greetingText : jsstring :=
  [50504; 45397; 54616; 49464; 50836; 33; 32; 39; 48712; 32; 54260; 45908; 32;
   52286; 50500; 51480; 39; 32; 46608; 45716; 32; 39; 52572; 44540; 32; 47928;
   49436; 32; 48372; 50668; 51480; 39; 32; 52376; 47100; 32; 47932; 50612;
   48372; 49464; 50836; 46].

Definition errorText : jsstring :=
  [50724; 47448; 44032; 32; 48156; 49373; 54664; 49845; 45768; 45796; 46; 32;
   48177; 50644; 46300; 32; 50672; 44208; 51012; 32; 54869; 51064; 54616;
   49464; 50836; 46].

Definition greeting : ChatMessage :=
  {| role := bot; text := string greetingText; results := None |}.

Definition errorEntry : ChatMessage :=
  {| role := bot; text := string errorText; results := None |}.

Definition userEntry (userMsg : jsstring) : ChatMessage :=
  {| role := user; text := string userMsg; results := None |}.

Definition init : State := mkState [] [greeting] false [].

(** The last field of that name, as [JSON.parse] keeps it. *)
Fixpoint lookupField (key : jsstring) (fields : list (jsstring * JsValue))
  : option JsValue :=
  match fields with
  | [] => None
  | (k, v) :: rest =>
      match lookupField key rest with
      | Some v' => Some v'
      | None => if bool_decide (k = key) then Some v else None
      end
  end.

(** [data.key] for a name that no prototype defines, as [message] and
    [results]: a [TypeError] ([None]) on [undefined] and [null], the own
    property of an object, and [undefined] otherwise. *)
Definition getMember (data : JsValue) (key : jsstring) : option JsValue :=
  match data with
  | undefined | null => None
  | object fields => Some (default undefined (lookupField key fields))
  | _ => Some undefined
  end.

(** How the request of a send ends: [fetch] rejects, [res.json()] rejects,
    or the body is parsed. *)
Inductive Outcome :=
  | fetchRejected
  | jsonRejected
  | parsed (data : JsValue).

(** [handleSend] up to its first [await]: the guard, the optimistic user
    entry and the request. The component's state is the one of the last
    render, which React performs before it delivers the next event. *)
Definition handleSend (st : State) : State :=
  if bool_decide (trim (input st) = []) || isLoading st then st
  else
    let userMsg := input st in
    mkState [] (messages st ++ [userEntry userMsg]) true
      (outstanding st ++ [userMsg]).

(** The function given to [setMessages] in the [try] block. React calls it
    when it renders, outside of the [try]; it throws ([None]) when a member
    of [data] cannot be read. *)
Definition successUpdate (data : JsValue) (prev : list ChatMessage)
  : option (list ChatMessage) :=
  match getMember data (str "message") with
  | None => None
  | Some message =>
      match getMember data (str "results") with
      | None => None
      | Some res =>
          Some (prev ++ [{| role := bot; text := message; results := Some res |}])
      end
  end.

(** The function given to [setMessages] in the [catch] block. *)
Definition errorUpdate (prev : list ChatMessage) : option (list ChatMessage) :=
  Some (prev ++ [errorEntry]).

(** Whether the [try] block throws: only its two [await]s can. *)
Definition isFailure (o : Outcome) : bool :=
  match o with
  | fetchRejected | jsonRejected => true
  | parsed _ => false
  end.

(** *** What the component renders *)

(** Whether React accepts a value as a child: strings and numbers are
    text, [undefined], [null] and booleans render nothing, an array stands
    for its items, and an object throws. *)
Fixpoint validChild (v : JsValue) : bool :=
  match v with
  | object _ => false
  | array items => forallb validChild items
  | _ => true
  end.

(** [ToBoolean] *)
Definition toBoolean (v : JsValue) : bool :=
  match v with
  | undefined | null => false
  | boolean b => b
  | number (finite _ mantissa _) => negb (mantissa =? 0)
  | number (infinite _) => true
  | string s => negb (bool_decide (s = []))
  | array _ | object _ => true
  end.

(** [v.length], for a value that is neither [undefined] nor [null]. *)
Definition lengthOf (v : JsValue) : JsValue :=
  match v with
  | string s => number (finite false (N.of_nat (length s)) 0)
  | array items => number (finite false (N.of_nat (length items)) 0)
  | object fields => default undefined (lookupField (str "length") fields)
  | _ => undefined
  end.

Definition positiveNumber (n : JsNumber) : bool :=
  match n with
  | finite false mantissa _ => negb (mantissa =? 0)
  | infinite false => true
  | _ => false
  end.

(** The longest prefix of code units that satisfy [p], and the rest. *)
Fixpoint span (p : N → bool) (s : jsstring) : jsstring * jsstring :=
  match s with
  | [] => ([], [])
  | c :: rest =>
      if p c then let (taken, left) := span p rest in (c :: taken, left)
      else ([], s)
  end.

Definition digitsValue (digits : jsstring) : N :=
  fold_left (λ acc c, 10 * acc + (c - 48)) digits 0.

(** Whether [mantissa] times ten to the [scale] is read as a Number above
    zero: it is unless it is at most two to the -1075, half the least
    positive Number, which rounds to zero. *)
Definition decimalPositive (mantissa : N) (scale : Z) : bool :=
  negb (mantissa =? 0)
  && match scale with
     | Zneg k => 10 ^ Npos k <? mantissa * 2 ^ 1075
     | _ => true
     end.

(** Whether an unsigned decimal literal of [StringToNumber] is above zero:
    [Infinity], or digits with an optional fraction and an optional
    exponent. Anything else is not a number. *)
Definition unsignedDecimalPositive (s : jsstring) : bool :=
  if bool_decide (s = str "Infinity") then true
  else
    let (int, r1) := span isDigit s in
    let (frac, r2) :=
      match r1 with
      | 46 :: r => span isDigit r
      | _ => ([], r1)
      end in
    if bool_decide (int = []) && bool_decide (frac = []) then false
    else
      let mantissa := digitsValue (int ++ frac) in
      let fraclen := Z.of_nat (length frac) in
      match r2 with
      | [] => decimalPositive mantissa (- fraclen)
      | e :: r3 =>
          if (e =? 101) || (e =? 69) then
            let (negexp, r4) :=
              match r3 with
              | 43 :: r => (false, r)
              | 45 :: r => (true, r)
              | _ => (false, r3)
              end in
            let (expDigits, r5) := span isDigit r4 in
            if bool_decide (expDigits = []) || negb (bool_decide (r5 = []))
            then false
            else
              let ex := Z.of_N (digitsValue expDigits) in
              decimalPositive mantissa
                ((if negexp then - ex else ex) - fraclen)%Z
          else false
      end.

Definition isHexDigit (c : N) : bool :=
  isDigit c || ((97 <=? c) && (c <=? 102)) || ((65 <=? c) && (c <=? 70)).
Definition isOctalDigit (c : N) : bool := (48 <=? c) && (c <=? 55).
Definition isBinaryDigit (c : N) : bool := (c =? 48) || (c =? 49).

(** Whether the digits after a prefix [0x], [0o] or [0b] make a number
    above zero. *)
Definition nonDecimalPositive (isD : N → bool) (digits : jsstring) : bool :=
  negb (bool_decide (digits = []))
  && forallb isD digits
  && negb (forallb (λ c, c =? 48) digits).

(** Whether [StringToNumber] of a string is above zero. *)
Definition stringPositive (s : jsstring) : bool :=
  match trim s with
  | 48 :: x :: digits =>
      if (x =? 120) || (x =? 88) then nonDecimalPositive isHexDigit digits
      else if (x =? 111) || (x =? 79) then nonDecimalPositive isOctalDigit digits
      else if (x =? 98) || (x =? 66) then nonDecimalPositive isBinaryDigit digits
      else unsignedDecimalPositive (trim s)
  | 43 :: r => unsignedDecimalPositive r
  | 45 :: _ => false
  | t => unsignedDecimalPositive t
  end.

(** [v > 0]: the value is made a number and compared. An array is first
    joined to a string, in which [undefined] and [null] are empty, a
    boolean is its name and more than one item gives a comma; [joined] says
    that [v] is an item of such an array. *)
Fixpoint greaterThanZeroAs (joined : bool) (v : JsValue) : bool :=
  match v with
  | undefined | null => false
  | boolean b => negb joined && b
  | number n => positiveNumber n
  | string s => stringPositive s
  | array [item] => greaterThanZeroAs true item
  | array _ => false
  | object _ => false
  end.

Definition greaterThanZero (v : JsValue) : bool := greaterThanZeroAs false v.

(** One item of the list of results: [file.name] and [file.path] are read
    and rendered as children. *)
Definition rendersFile (file : JsValue) : bool :=
  match getMember file (str "name"), getMember file (str "path") with
  | Some n, Some p => validChild n && validChild p
  | _, _ => false
  end.

(** [msg.results && msg.results.length > 0 && (... msg.results.map ...)]:
    whether it is evaluated and rendered without a throw. A falsy operand
    is the value of the expression and a valid child; [map] is a function
    on arrays only. *)
Definition rendersResults (res : option JsValue) : bool :=
  match res with
  | None => true
  | Some v =>
      if negb (toBoolean v) then true
      else if negb (greaterThanZero (lengthOf v)) then true
      else
        match v with
        | array items => forallb rendersFile items
        | _ => false
        end
  end.

(** Whether an entry of the conversation is rendered without a throw. *)
Definition renders (m : ChatMessage) : bool :=
  validChild (text m) && rendersResults (results m).

(** [handleSend] from its first [await] on: [try], [catch] and [finally],
    then the render that applies the queued update and renders the entry it
    appends (the entries before it have been rendered already). The result
    is [None] when the update throws during that render or the new entry
    cannot be rendered: either unmounts the component. *)
Definition handleSend_settled (o : Outcome) (st : State) : option State :=
  let update :=
    match o with
    | parsed data => successUpdate data
    | fetchRejected | jsonRejected => errorUpdate
    end in
  match update (messages st) with
  | Some messages' =>
      if forallb renders (drop (length (messages st)) messages')
      then Some (mkState (input st) messages' false (tl (outstanding st)))
      else None
  | None => None
  end.

(** What happens in the webview: the user edits the field, asks to send, or
    the outstanding request settles. *)
Inductive Event :=
  | SetInput (value : jsstring)
  | Send
  | Settled (o : Outcome).

Definition setInput (value : jsstring) (st : State) : State :=
  mkState value (messages st) (isLoading st) (outstanding st).

Definition enabled (e : Event) (st : State) : bool :=
  match e with
  | Settled _ => negb (bool_decide (outstanding st = []))
  | _ => true
  end.

Definition step (e : Event) (st : State) : option State :=
  match e with
  | SetInput value => Some (setInput value st)
  | Send => Some (handleSend st)
  | Settled o => handleSend_settled o st
  end.

Fixpoint run (events : list Event) (st : State) : option State :=
  match events with
  | [] => Some st
  | e :: rest =>
      if enabled e st then
        match step e st with
        | Some st' => run rest st'
        | None => None
        end
      else None
  end.

Definition isSettled (e : Event) : bool :=
  match e with
  | Settled _ => true
  | _ => false
  end.

(** The success entry of a parsed body. *)
Definition successEntry (message res : JsValue) : ChatMessage :=
  {| role := bot; text := message; results := Some res |}.

(** Single flight: at most one request is outstanding, and the flag is set
    exactly when one is. *)
Definition singleFlight (st : State) : Prop :=
  (length (outstanding st) ≤ 1)%nat
  ∧ (isLoading st = true ↔ outstanding st ≠ []).

Definition isUser (m : ChatMessage) : bool :=
  match role m with
  | user => true
  | bot => false
  end.

(** Whether the entries alternate between the assistant and the user,
    starting with the user when [userNext] and with the assistant otherwise. *)
Fixpoint alternates (userNext : bool) (ms : list ChatMessage) : bool :=
  match ms with
  | [] => true
  | m :: rest => eqb (isUser m) userNext && alternates (negb userNext) rest
  end.

(** The entries alternate from the greeting on, and the last one is the
    user's exactly while the flag is set. *)
Definition dialogue (st : State) : Prop :=
  alternates false (messages st) = true
  ∧ Nat.even (length (messages st)) = isLoading st.

(** *** Sample states *)

(** The user typed a question and sent it; the request is outstanding. *)
Definition loadingState : State :=
  handleSend (setInput (str "find empty folders") init).

End Chat.

(** * Properties *)

(** ** JavaScript strings *)

Module JsFacts.
Import Js.

Lemma startsWith_app p r : startsWith p (p ++ r) = true.
Proof.
  induction p as [|a p IH]; simpl; [done|].
  by rewrite N.eqb_refl, IH.
Qed.

Lemma startsWith_inv p s : startsWith p s = true → ∃ r, s = p ++ r.
Proof.
  revert s. induction p as [|a p IH]; intros s H; simpl in *.
  - by exists s.
  - destruct s as [|b s]; [done|].
    apply andb_true_iff in H as [Hab H].
    apply N.eqb_eq in Hab as ->.
    destruct (IH _ H) as [r ->]. by exists r.
Qed.

Lemma stripPrefix_app p r : stripPrefix p (p ++ r) = Some r.
Proof.
  induction p as [|a p IH]; simpl; [done|].
  by rewrite N.eqb_refl.
Qed.

Lemma stripPrefix_Some p s r : stripPrefix p s = Some r → s = p ++ r.
Proof.
  revert s. induction p as [|a p IH]; intros s H; simpl in *.
  - by inversion H.
  - destruct s as [|b s]; [done|].
    destruct (N.eqb_spec a b) as [->|]; [|done].
    by rewrite (IH _ H).
Qed.

Lemma stripPrefix_startsWith p s :
  startsWith p s = false → stripPrefix p s = None.
Proof.
  revert s. induction p as [|a p IH]; intros s H; simpl in *; [done|].
  destruct s as [|b s]; [done|].
  destruct (a =? b); simpl in H; [by apply IH|done].
Qed.

Lemma includes_startsWith s needle :
  startsWith needle s = true → includes s needle = true.
Proof. intros H. destruct s; simpl; by rewrite H. Qed.

Lemma includes_cons c s needle :
  includes s needle = true → includes (c :: s) needle = true.
Proof. intros H. simpl. rewrite H. apply orb_true_r. Qed.

Lemma includes_app_r a s needle :
  includes s needle = true → includes (a ++ s) needle = true.
Proof.
  intros H. induction a as [|c a IH]; simpl; [done|].
  rewrite IH. apply orb_true_r.
Qed.

Lemma includes_middle a needle b : includes (a ++ needle ++ b) needle = true.
Proof. apply includes_app_r, includes_startsWith, startsWith_app. Qed.

Lemma includes_cons_false c s needle :
  includes (c :: s) needle = false →
  startsWith needle (c :: s) = false ∧ includes s needle = false.
Proof. simpl. intros H. by apply orb_false_iff in H. Qed.

(** A prefix of [t ++ rest] lies within [t] or runs over its end. *)
Lemma startsWith_app_split p t rest :
  startsWith p (t ++ rest) = true →
  startsWith p t = true ∨
  (length t < length p)%nat ∧ startsWith (drop (length t) p) rest = true.
Proof.
  revert t. induction p as [|a p IH]; intros t H; [by left|].
  destruct t as [|b t]; simpl in *.
  - right. split; [lia|done].
  - apply andb_true_iff in H as [Hab H]. rewrite Hab. simpl.
    destruct (IH _ H) as [?|[? ?]]; [by left|right].
    split; [lia|done].
Qed.

(** Code units other than the dollar sign stand for themselves in a
    replacement template. *)
Lemma GetSubstitution_literal matched before after captures lit t :
  dollarFree lit = true →
  GetSubstitution matched before after captures (lit ++ t)
  = lit ++ GetSubstitution matched before after captures t.
Proof.
  induction lit as [|c lit IH]; intros H; [done|].
  simpl in H. apply andb_true_iff in H as [Hc H].
  change ((c :: lit) ++ t) with (c :: (lit ++ t)).
  cbn [GetSubstitution]. rewrite Hc. by rewrite IH.
Qed.

End JsFacts.

(** ** The Content Renderer *)

Module RendererFacts.
Import Js JsFacts Renderer.

Lemma lazyUntilQuote_name n rest :
  validName n = true → lazyUntilQuote (n ++ quote :: rest) = Some (n, rest).
Proof.
  induction n as [|c n IH]; intros H; simpl in *.
  - done.
  - apply andb_true_iff in H as [Hc H].
    apply andb_true_iff in Hc as [Hq Hl].
    apply negb_true_iff in Hq, Hl. rewrite Hq, Hl.
    by rewrite (IH H).
Qed.

Lemma matchAlternative_here a n rest :
  validName n = true →
  matchAlternative (attrName a) (reference a n ++ rest)
  = Some (attrName a, n, rest).
Proof.
  intros H. unfold matchAlternative, reference, matchedText.
  rewrite <- !app_assoc. rewrite !stripPrefix_app.
  change ([quote] ++ rest) with (quote :: rest).
  by rewrite lazyUntilQuote_name.
Qed.

(** The pattern matches a reference, and captures the attribute and the name. *)
Lemma matchAt_reference a n rest :
  validName n = true →
  matchAt (reference a n ++ rest) = Some (attrName a, n, rest).
Proof.
  intros H. unfold matchAt. destruct a.
  - by rewrite (matchAlternative_here src).
  - rewrite <- (matchAlternative_here href n rest H). reflexivity.
Qed.

Lemma matchAlternative_startsWith a s m :
  matchAlternative a s = Some m → startsWith (a ++ assetsLiteral) s = true.
Proof.
  unfold matchAlternative. intros H.
  destruct (stripPrefix a s) as [r1|] eqn:E1; [|done].
  destruct (stripPrefix assetsLiteral r1) as [r2|] eqn:E2; [|done].
  apply stripPrefix_Some in E1 as ->. apply stripPrefix_Some in E2 as ->.
  rewrite app_assoc. apply startsWith_app.
Qed.

Lemma matchAt_None s :
  startsWith (str "src" ++ assetsLiteral) s = false →
  startsWith (str "href" ++ assetsLiteral) s = false →
  matchAt s = None.
Proof.
  intros H1 H2. unfold matchAt.
  destruct (matchAlternative (str "src") s) as [m|] eqn:E1.
  { apply matchAlternative_startsWith in E1. congruence. }
  destruct (matchAlternative (str "href") s) as [m|] eqn:E2; [|done].
  apply matchAlternative_startsWith in E2. congruence.
Qed.

(** No proper suffix of the fixed part of the pattern starts a reference. *)
Lemma no_straddle a k rest :
  atReference rest →
  (0 < k < length (attrName a ++ assetsLiteral))%nat →
  startsWith (drop k (attrName a ++ assetsLiteral)) rest = false.
Proof.
  intros Hrest Hk.
  assert (Hcases : rest = [] ∨ (∃ r, rest = 115 :: 114 :: r)
                   ∨ (∃ r, rest = 104 :: 114 :: r)).
  { destruct Hrest as [->|(b & n & r & ->)]; [by left|right].
    destruct b; [left|right]; eexists; reflexivity. }
  destruct a; simpl in Hk;
    do 16 (destruct k as [|k]; [first [lia|
      destruct Hcases as [->|[[r ->]|[r ->]]]; reflexivity]|]); lia.
Qed.

(** No match starts inside a text that a reference or the end follows. *)
Lemma matchAt_text c t rest :
  plainText (c :: t) = true →
  atReference rest →
  matchAt ((c :: t) ++ rest) = None.
Proof.
  intros Hplain Hrest.
  apply andb_true_iff in Hplain as [Hsrc Hhref].
  apply negb_true_iff in Hsrc, Hhref.
  assert (Hno : ∀ a, startsWith (attrName a ++ assetsLiteral) ((c :: t) ++ rest)
                     = false).
  { intros a.
    destruct (startsWith (attrName a ++ assetsLiteral) ((c :: t) ++ rest)) eqn:E;
      [|done].
    apply startsWith_app_split in E as [E|[Hlen E]].
    - apply includes_startsWith in E. destruct a; unfold attrName in E; congruence.
    - rewrite no_straddle in E; [done|done|]. simpl in *. lia. }
  apply matchAt_None; [apply (Hno src)|apply (Hno href)].
Qed.

Lemma lazyUntilQuote_shorter s :
  ∀ n rest, lazyUntilQuote s = Some (n, rest) → (length rest < length s)%nat.
Proof.
  induction s as [|c s IH]; intros n rest H; simpl in *; [done|].
  destruct (c =? quote); [inversion H; subst; lia|].
  destruct (isLineTerminator c); [done|].
  destruct (lazyUntilQuote s) as [[n' rest']|]; [|done].
  inversion H; subst. specialize (IH _ _ eq_refl). lia.
Qed.

(** A match is never empty: the search always advances. *)
Lemma matchAt_shorter s a n rest :
  matchAt s = Some (a, n, rest) → (length rest < length s)%nat.
Proof.
  assert (Halt : ∀ a0, matchAlternative a0 s = Some (a, n, rest) →
                       (length rest < length s)%nat).
  { intros a0. unfold matchAlternative.
    destruct (stripPrefix a0 s) as [r1|] eqn:E1; [|done].
    destruct (stripPrefix assetsLiteral r1) as [r2|] eqn:E2; [|done].
    destruct (lazyUntilQuote r2) as [[n' rest']|] eqn:E3; [|done].
    intros H. inversion H; subst.
    apply stripPrefix_Some in E1 as ->. apply stripPrefix_Some in E2 as ->.
    apply lazyUntilQuote_shorter in E3. rewrite !length_app. lia. }
  unfold matchAt.
  destruct (matchAlternative (str "src") s) as [m|] eqn:E.
  - intros H. inversion H; subst. by eapply Halt.
  - apply Halt.
Qed.

(** The fuel above the length of the text is never used up. *)
Lemma replaceAssets_from_fuel template fuel :
  ∀ fuel' before s,
    (length s < fuel)%nat → (length s < fuel')%nat →
    replaceAssets_from fuel template before s
    = replaceAssets_from fuel' template before s.
Proof.
  induction fuel as [|fuel IH]; intros fuel' before s H H'; [lia|].
  destruct fuel' as [|fuel']; [lia|]. cbn [replaceAssets_from].
  destruct (matchAt s) as [[[a n] rest]|] eqn:E.
  - apply matchAt_shorter in E. f_equal. apply IH; lia.
  - destruct s as [|c s]; [done|]. simpl in *. f_equal. apply IH; lia.
Qed.

Lemma plainText_tail c t : plainText (c :: t) = true → plainText t = true.
Proof.
  unfold plainText. intros [H1 H2]%andb_true_iff.
  apply negb_true_iff, includes_cons_false in H1 as [_ H1].
  apply negb_true_iff, includes_cons_false in H2 as [_ H2].
  by rewrite H1, H2.
Qed.

(** A text is copied, and the search resumes after it. *)
Lemma replaceAssets_from_text template t :
  ∀ fuel before rest,
    plainText t = true → atReference rest → (length t ≤ fuel)%nat →
    replaceAssets_from fuel template before (t ++ rest)
    = t ++ replaceAssets_from (fuel - length t) template (before ++ t) rest.
Proof.
  induction t as [|c t IH]; intros fuel before rest Hplain Hrest Hfuel.
  - simpl. by rewrite Nat.sub_0_r, app_nil_r.
  - destruct fuel as [|fuel]; [simpl in Hfuel; lia|].
    cbn [replaceAssets_from].
    rewrite matchAt_text; [|done|done].
    cbn [app]. f_equal.
    rewrite IH; [|by eapply plainText_tail|done|simpl in Hfuel; lia].
    simpl. by rewrite <- app_assoc.
Qed.











Lemma lazyUntilQuote_inv s :
  ∀ n rest, lazyUntilQuote s = Some (n, rest) →
            s = n ++ quote :: rest ∧ validName n = true.
Proof.
  induction s as [|c s IH]; intros n rest H; simpl in *; [done|].
  destruct (N.eqb_spec c quote) as [->|Hq].
  { inversion H; subst. done. }
  destruct (isLineTerminator c) eqn:Hl; [done|].
  destruct (lazyUntilQuote s) as [[n' rest']|]; [|done].
  inversion H; subst. destruct (IH _ _ eq_refl) as [-> Hv].
  split; [done|]. simpl. rewrite Hv, Hl.
  apply N.eqb_neq in Hq. by rewrite Hq.
Qed.

Lemma matchAlternative_inv a s g n rest :
  matchAlternative (attrName a) s = Some (g, n, rest) →
  g = attrName a ∧ s = reference a n ++ rest ∧ validName n = true.
Proof.
  unfold matchAlternative. intros H.
  destruct (stripPrefix (attrName a) s) as [r1|] eqn:E1; [|done].
  destruct (stripPrefix assetsLiteral r1) as [r2|] eqn:E2; [|done].
  destruct (lazyUntilQuote r2) as [[n' rest']|] eqn:E3; [|done].
  inversion H; subst.
  apply stripPrefix_Some in E1 as ->. apply stripPrefix_Some in E2 as ->.
  apply lazyUntilQuote_inv in E3 as [-> Hv].
  split; [done|]. split; [|done].
  unfold reference, matchedText. by rewrite <- !app_assoc.
Qed.

(** X1: the pattern matches at the start of a text exactly when the text
    starts with a double-quoted [src] or [href] attribute whose value is
    [./assets/] and a name without double quote or line terminator; the
    captures are the attribute and the name. *)
Theorem matchAt_exactly_quoted_references s g n rest :
  matchAt s = Some (g, n, rest)
  ↔ ∃ a, g = attrName a ∧ s = reference a n ++ rest ∧ validName n = true.
Proof.
  split.
  - unfold matchAt.
    destruct (matchAlternative (str "src") s) as [m|] eqn:E.
    + intros H. inversion H; subst. exists src.
      by apply (matchAlternative_inv src).
    + intros H. exists href. by apply (matchAlternative_inv href).
  - intros (a & -> & -> & Hv). by apply matchAt_reference.
Qed.

(** X2: a document in which no such attribute opens is returned as it is,
    whatever the base URI. *)
Theorem rewriteAssets_without_references base html :
  plainText html = true → rewriteAssets base html = html.
Proof.
  intros H. unfold rewriteAssets, replaceAssets.
  rewrite <- (app_nil_r html) at 2.
  rewrite replaceAssets_from_text; [|done|by left|lia].
  replace (S (length html) - length html)%nat with 1%nat by lia.
  simpl. by rewrite !app_nil_r.
Qed.

Lemma rewriteAssets_without_references_witness :
  rewriteAssets sampleBase singleQuotedDocument = singleQuotedDocument.
Proof.
  apply (rewriteAssets_without_references sampleBase singleQuotedDocument).
  reflexivity.
Defined.

Lemma splitAtFirst_absent needle s :
  includes s needle = false → splitAtFirst needle s = None.
Proof.
  induction s as [|c s IH]; intros H.
  - simpl in *. apply orb_false_iff in H as [H _].
    by rewrite stripPrefix_startsWith.
  - apply includes_cons_false in H as [H1 H2].
    cbn [splitAtFirst]. rewrite stripPrefix_startsWith by done.
    by rewrite IH.
Qed.

Lemma splitAtFirst_head before after :
  includes before (str "<head>") = false →
  splitAtFirst (str "<head>") (before ++ str "<head>" ++ after)
  = Some (before, after).
Proof.
  induction before as [|c before IH]; intros H.
  - reflexivity.
  - apply includes_cons_false in H as [H1 H2].
    change ((c :: before) ++ str "<head>" ++ after)
      with (c :: (before ++ str "<head>" ++ after)).
    cbn [splitAtFirst].
    rewrite stripPrefix_startsWith.
    + by rewrite IH.
    + destruct (startsWith (str "<head>") (c :: before ++ str "<head>" ++ after))
        eqn:E; [|done].
      apply (startsWith_app_split _ (c :: before)) in E as [E|[Hlen E]];
        [congruence|].
      simpl in Hlen.
      destruct before as [|? [|? [|? [|? [|? ?]]]]]; simpl in *;
        first [done|lia].
Qed.

Lemma dollarFree_app a b :
  dollarFree (a ++ b) = dollarFree a && dollarFree b.
Proof. apply forallb_app. Qed.

Lemma GetSubstitution_dollarFree matched before after captures template :
  dollarFree template = true →
  GetSubstitution matched before after captures template = template.
Proof.
  intros H. rewrite <- (app_nil_r template) at 1.
  rewrite GetSubstitution_literal by done. simpl. by rewrite app_nil_r.
Qed.

Lemma headTemplate_dollarFree env :
  dollarFree (baseUri env) = true → dollarFree (cspSource env) = true →
  dollarFree (headTemplate env) = true.
Proof.
  intros Hb Hc. unfold headTemplate, csp, line.
  rewrite !dollarFree_app, Hb, Hc. reflexivity.
Qed.

(** X3: the head template is put in place of the first [<head>] of the
    document, and the text before and after it is kept; the base URI and the
    CSP source have no dollar sign. *)
Theorem injectHead_after_first_head env before after :
  dollarFree (baseUri env) = true →
  dollarFree (cspSource env) = true →
  includes before (str "<head>") = false →
  injectHead env (before ++ str "<head>" ++ after)
  = before ++ headTemplate env ++ after.
Proof.
  intros Hb Hc H. unfold injectHead, replaceFirst.
  rewrite splitAtFirst_head by done.
  by rewrite GetSubstitution_dollarFree by (by apply headTemplate_dollarFree).
Qed.

Lemma injectHead_after_first_head_witness :
  injectHead (sampleEnv headedDocument)
    (str "<!DOCTYPE html><html>" ++ str "<head>"
     ++ str "<title>Lumi</title></head><body><head></body></html>")
  = str "<!DOCTYPE html><html>" ++ headTemplate (sampleEnv headedDocument)
    ++ str "<title>Lumi</title></head><body><head></body></html>".
Proof.
  apply (injectHead_after_first_head (sampleEnv headedDocument)
           (str "<!DOCTYPE html><html>")
           (str "<title>Lumi</title></head><body><head></body></html>"));
    reflexivity.
Defined.

Lemma injectHead_without_head env html :
  includes html (str "<head>") = false → injectHead env html = html.
Proof.
  intros H. unfold injectHead, replaceFirst. by rewrite splitAtFirst_absent.
Qed.

(** X4: a document without the exact text [<head>] (no head, or a head tag
    with attributes) and without asset references is shown as it is: neither
    the base tag nor the content security policy is added. *)
Theorem getWebviewContent_without_head env html :
  indexHtml env = Some html →
  plainText html = true →
  includes html (str "<head>") = false →
  getWebviewContent env = html.
Proof.
  intros Hhtml Hplain Hhead. unfold getWebviewContent. rewrite Hhtml.
  rewrite rewriteAssets_without_references by done.
  by apply injectHead_without_head.
Qed.

Lemma getWebviewContent_without_head_witness :
  getWebviewContent (sampleEnv headWithAttribute) = headWithAttribute.
Proof.
  apply (getWebviewContent_without_head (sampleEnv headWithAttribute)
           headWithAttribute); reflexivity.
Defined.

End RendererFacts.

(** ** The extension *)

Module ExtensionFacts.
Import Js Extension.
#[local] Set Warnings "-clear-no-such-hyp".

Lemma emitted_app s s' cs : calls s' = calls s ++ cs → emitted s s' = cs.
Proof. unfold emitted. intros ->. apply drop_app_length. Qed.

(** Every handler only adds to the log of calls. *)
Lemma createOrShowWebviewPanel_calls env s :
  calls (createOrShowWebviewPanel env s)
  = calls s ++
    match currentPanel s with
    | Some panel => [reveal panel (activeColumn env)]
    | None =>
        [createWebviewPanel (created s) (columnOrOne (activeColumn env));
         setHtml (created s) (Renderer.getWebviewContent (renderEnv env))]
    end.
Proof.
  unfold createOrShowWebviewPanel. destruct (currentPanel s); simpl; [done|].
  by rewrite <- app_assoc.
Qed.

Lemma set_size_le_1 (X : gset nat) :
  (∀ p q, p ∈ X → q ∈ X → p = q) → (size X ≤ 1)%nat.
Proof.
  intros H. destruct (set_choose_or_empty X) as [[x Hx]|HX].
  - rewrite <- (size_singleton (C:=gset nat) x). apply subseteq_size.
    intros y Hy. apply elem_of_singleton. by apply H.
  - apply leibniz_equiv in HX. subst X. rewrite size_empty. lia.
Qed.

Lemma Inv_init : Inv init.
Proof. split; simpl; try done; set_solver. Qed.

Ltac inv_auto := simpl in *; try done; try congruence; try (set_unfold; naive_solver).

Lemma Inv_createOrShowWebviewPanel env s :
  Inv s → Inv (createOrShowWebviewPanel env s).
Proof.
  intros [HP HW HU HO HK]. unfold createOrShowWebviewPanel.
  destruct s as [bp cp rdy lw op sp cr reg cs]; simpl in *.
  destruct cp as [panel|]; split; inv_auto.
Qed.

Lemma Inv_step e s : Inv s → enabled e s = true → Inv (step e s).
Proof.
  intros HI He. destruct e as [env|pid env msg|pid code sig|pid cause msg|panel|];
    simpl in *.
  - (* the start command *)
    unfold start. destruct (currentPanel s) as [panel|] eqn:Ecp.
    { destruct HI as [HP HW HU HO HK]. split; inv_auto. }
    destruct (backendProcess s) as [pid|] eqn:Ebp;
      [by apply Inv_createOrShowWebviewPanel|].
    destruct HI as [HP HW HU HO HK].
    destruct (exeExists env); simpl; split; inv_auto.
  - (* output of a worker *)
    unfold stderr_onData.
    assert (HI' : Inv (if includes msg readyMarker && negb (ready s pid)
                       then createOrShowWebviewPanel env
                              (set_isBackendReady pid true s)
                       else s)).
    { destruct (includes msg readyMarker && negb (ready s pid)); [|done].
      apply Inv_createOrShowWebviewPanel. by destruct HI. }
    destruct (isErrorLine msg); [|done].
    destruct HI' as [HP HW HU HO HK]. split; inv_auto.
  - (* exit of a worker *)
    apply bool_decide_eq_true in He.
    destruct HI as [HP HW HU HO HK]. unfold onExit. simpl.
    destruct (currentPanel s) as [panel|] eqn:Ecp; split; inv_auto.
  - (* error of a worker *)
    destruct HI as [HP HW HU HO HK]. destruct cause; simpl in *.
    + apply bool_decide_eq_true in He. split; inv_auto.
    + apply andb_true_iff in He as [He Hk].
      apply bool_decide_eq_true in He, Hk. apply HK in Hk.
      split; inv_auto.
  - (* the user closes the panel *)
    apply bool_decide_eq_true in He.
    destruct HI as [HP HW HU HO HK]. split; [|inv_auto..].
    intros p. split; [|done]. intros [Hp Hne]%elem_of_difference.
    apply HP in Hp, He. rewrite Hp in He. inversion He; subst.
    by destruct Hne; apply elem_of_singleton.
  - (* deactivation *)
    destruct HI as [HP HW HU HO HK]. unfold onDeactivate.
    destruct (currentPanel s) as [panel|] eqn:Ecp; simpl;
      destruct (backendProcess s) as [pid|] eqn:Ebp; split; inv_auto.
Qed.

Lemma Inv_run events : ∀ s s', Inv s → run events s = Some s' → Inv s'.
Proof.
  induction events as [|e events IH]; intros s s' HI H; simpl in H.
  - by inversion H; subst.
  - destruct (enabled e s) eqn:He; [|done].
    eapply IH; [|done]. by apply Inv_step.
Qed.

Lemma Inv_reachable s : reachable s → Inv s.
Proof. intros [events H]. eapply Inv_run; [apply Inv_init|done]. Qed.

Lemma reachable_step e s :
  reachable s → enabled e s = true → reachable (step e s).
Proof.
  intros [events H] He. exists (events ++ [e]).
  revert H. generalize init. induction events as [|e' events IH]; intros s0 H.
  - inversion H; subst. simpl. by rewrite He.
  - simpl in *. destruct (enabled e' s0); [|done]. by apply IH.
Qed.

(** C1 fails on the code: the start command, invoked a second time while
    the worker is spawned and has not announced its readiness, creates the
    panel. No output of the worker was observed, and the closure variable
    [isBackendReady] is still false. The readiness check of the [stderr]
    listener is missing on this path. *)
Theorem C1_second_start_creates_panel_before_readiness :
  ∃ s, run [CmdStart noEditor; CmdStart noEditor] init = Some s
       ∧ calls s = [spawn 0; createWebviewPanel 0 One;
                    setHtml 0 (Renderer.getWebviewContent sampleRender)]
       ∧ backendProcess s = Some 0%nat
       ∧ currentPanel s = Some 0%nat
       ∧ ready s 0 = false.
Proof. eexists. repeat split; reflexivity. Qed.

Lemma start_twice_calls env1 env2 s pid :
  backendProcess s = Some pid →
  ∃ panel,
    currentPanel (start env1 s) = Some panel
    ∧ start env2 (start env1 s) = log (reveal panel (Some One)) (start env1 s)
    ∧ calls (start env1 s) = calls s ++
        match currentPanel s with
        | Some _ => [reveal panel (Some One)]
        | None => [createWebviewPanel panel (columnOrOne (activeColumn env1));
                   setHtml panel (Renderer.getWebviewContent (renderEnv env1))]
        end
    ∧ backendProcess (start env1 s) = Some pid
    ∧ liveWorkers (start env1 s) = liveWorkers s
    ∧ spawned (start env1 s) = spawned s.
Proof.
  intros Hbp. destruct s as [bp cp rdy lw op sp cr reg cs]. simpl in *. subst bp.
  destruct cp as [panel|].
  - exists panel. by cbv [start log currentPanel].
  - exists cr. cbv [start createOrShowWebviewPanel log currentPanel backendProcess
                     calls created liveWorkers spawned].
    rewrite <- app_assoc. done.
Qed.

(** C2: two invocations of the start command in a row, in a state of a
    session where the worker runs and is ready, spawn no worker and create at
    most one panel (none when one was open); the second invocation only
    reveals the panel that exists after the first. In every state of a session
    at most one worker lives and at most one panel is open. *)
Theorem C2_start_twice_is_idempotent s pid env1 env2 :
  reachable s →
  commandRegistered s = true →
  backendProcess s = Some pid →
  ready s pid = true →
  let s1 := step (CmdStart env1) s in
  let s2 := step (CmdStart env2) s1 in
  (∃ panel, currentPanel s1 = Some panel
            ∧ emitted s1 s2 = [reveal panel (Some One)]
            ∧ currentPanel s2 = Some panel
            ∧ openPanels s2 = {[panel]})
  ∧ filter isSpawn (emitted s s2) = []
  ∧ (length (filter isCreate (emitted s s2)) ≤ 1)%nat
  ∧ backendProcess s2 = Some pid
  ∧ liveWorkers s2 = {[pid]}
  ∧ spawned s2 = spawned s
  ∧ (∀ s', reachable s' →
       (size (liveWorkers s') ≤ 1)%nat ∧ (size (openPanels s') ≤ 1)%nat).
Proof.
  intros Hreach Hreg Hbp _ s1 s2.
  assert (Hr1 : reachable s1) by (by apply reachable_step).
  destruct (start_twice_calls env1 env2 s pid Hbp)
    as (panel & Hcp1 & Hs2 & Hcalls & Hbp1 & Hlw1 & Hsp1).
  change (start env1 s) with s1 in *. change (start env2 s1) with s2 in *.
  assert (Hreg1 : commandRegistered s1 = true).
  { subst s1. simpl. unfold start, createOrShowWebviewPanel.
    rewrite Hbp. by destruct (currentPanel s). }
  assert (Hr2 : reachable s2) by (by apply reachable_step).
  assert (Hcalls2 : calls s2 = calls s1 ++ [reveal panel (Some One)])
    by (by rewrite Hs2).
  assert (Hem : emitted s s2 =
                match currentPanel s with
                | Some _ => [reveal panel (Some One)]
                | None => [createWebviewPanel panel (columnOrOne (activeColumn env1));
                           setHtml panel (Renderer.getWebviewContent (renderEnv env1))]
                end ++ [reveal panel (Some One)]).
  { apply emitted_app. by rewrite Hcalls2, Hcalls, <- app_assoc. }
  repeat split.
  - exists panel. repeat split.
    + done.
    + by apply emitted_app.
    + by rewrite Hs2.
    + apply Inv_reachable in Hr2 as [HP _ _ _ _].
      apply set_eq. intros p. rewrite HP, Hs2. simpl. rewrite Hcp1.
      rewrite elem_of_singleton. naive_solver.
  - rewrite Hem. by destruct (currentPanel s).
  - rewrite Hem. destruct (currentPanel s); simpl; lia.
  - by rewrite Hs2.
  - apply Inv_reachable in Hreach as [_ HW _ _ _].
    rewrite Hs2. simpl. rewrite Hlw1. apply set_eq. intros p.
    rewrite (HW Hreg p), Hbp, elem_of_singleton. naive_solver.
  - by rewrite Hs2.
  - apply set_size_le_1. by apply Inv_reachable in H as [_ _ _ HO _].
  - apply set_size_le_1. apply Inv_reachable in H as [HP _ _ _ _].
    intros p q Hp%HP Hq%HP. congruence.
Qed.

Lemma reachable_readyState : reachable readyState.
Proof.
  exists [CmdStart noEditor; StderrData 0 noEditor readyMarker]. reflexivity.
Qed.

(** C2 at the state where the worker has announced its readiness. *)
Lemma C2_start_twice_witness :
  reachable readyState
  ∧ backendProcess readyState = Some 0%nat
  ∧ ready readyState 0 = true
  ∧ ∃ panel,
      currentPanel (step (CmdStart noEditor) readyState) = Some panel
      ∧ emitted (step (CmdStart noEditor) readyState)
          (step (CmdStart editorInTwo) (step (CmdStart noEditor) readyState))
        = [reveal panel (Some One)]
      ∧ currentPanel
          (step (CmdStart editorInTwo) (step (CmdStart noEditor) readyState))
        = Some panel
      ∧ openPanels
          (step (CmdStart editorInTwo) (step (CmdStart noEditor) readyState))
        = {[panel]}.
Proof.
  split; [apply reachable_readyState|]. do 2 (split; [reflexivity|]).
  apply (C2_start_twice_is_idempotent readyState 0 noEditor editorInTwo);
    [apply reachable_readyState|reflexivity..].
Defined.

(** C3: when a worker exits, whatever its exit code and signal, the [exit]
    listener clears [backendProcess] and disposes the panel if one is open;
    afterwards both [backendProcess] and [currentPanel] are cleared. *)
Theorem C3_exit_clears_worker_and_panel pid code signal s :
  let s' := step (ProcessExit pid code signal) s in
  backendProcess s' = None
  ∧ currentPanel s' = None
  ∧ (pid ∉ liveWorkers s')
  ∧ match currentPanel s with
    | Some panel => emitted s s' = [dispose panel] ∧ panel ∉ openPanels s'
    | None => emitted s s' = []
    end.
Proof.
  simpl. unfold onExit. simpl.
  destruct (currentPanel s) as [panel|] eqn:Ecp; simpl.
  - repeat split; [set_solver| |set_solver].
    by apply emitted_app.
  - repeat split; [done|set_solver|].
    apply emitted_app. by rewrite app_nil_r.
Qed.

(** C4: when the user closes the panel, the disposal listener clears
    [currentPanel] and nothing else: the worker handle, the live workers, the
    readiness flags and the log of calls (so no [kill]) are unchanged. *)
Theorem C4_panel_close_keeps_worker panel s :
  let s' := step (PanelClosed panel) s in
  currentPanel s' = None
  ∧ (panel ∉ openPanels s')
  ∧ backendProcess s' = backendProcess s
  ∧ liveWorkers s' = liveWorkers s
  ∧ isBackendReady s' = isBackendReady s
  ∧ commandRegistered s' = commandRegistered s
  ∧ spawned s' = spawned s
  ∧ created s' = created s
  ∧ calls s' = calls s
  ∧ onDidDispose s = set_currentPanel None s.
Proof. simpl. repeat split. set_solver. Qed.

(** C7, as stated, fails: the listener classifies the chunk of output it
    is given, not its lines. A chunk with an informational line and an
    error line holds a line with [ERROR] and without [INFO], and nothing is
    shown for it. And a shown chunk that holds the readiness marker does
    change the readiness. *)
Lemma C7_counterexample :
  splitLines infoThenError
  = [str "INFO:     Waiting for application startup."; errorLine]
  ∧ isErrorLine errorLine = true
  ∧ emitted workerStarted (stderr_onData 0 noEditor infoThenError workerStarted)
    = []
  ∧ isErrorLine errorWithMarker = true
  ∧ emitted workerStarted
      (stderr_onData 0 noEditor errorWithMarker workerStarted)
    = [createWebviewPanel 0 One;
       setHtml 0 (Renderer.getWebviewContent sampleRender);
       showErrorMessage (str "Lumi Backend Error: " ++ errorWithMarker)]
  ∧ ready workerStarted 0 = false
  ∧ ready (stderr_onData 0 noEditor errorWithMarker workerStarted) 0 = true.
Proof. repeat split. Qed.

(** C7, amended: the [stderr] listener shows an error notification for the
    chunk of output it is given exactly when the chunk contains [ERROR] or
    [Warning] and does not contain [INFO]; it never kills the worker nor
    changes the worker handle; the readiness flag afterwards is the one
    before, or set when the chunk contains the readiness marker: a chunk
    without the marker, shown or not, leaves every readiness flag as it
    was. *)
Theorem C7_error_line_classification pid env message s :
  let s' := stderr_onData pid env message s in
  let notification := showErrorMessage (str "Lumi Backend Error: " ++ message) in
  (notification ∈ emitted s s' ↔
     (includes message (str "ERROR") = true
      ∨ includes message (str "Warning") = true)
     ∧ includes message (str "INFO") = false)
  ∧ (∀ m, showErrorMessage m ∈ emitted s s' → showErrorMessage m = notification)
  ∧ (∀ p, kill p ∉ emitted s s')
  ∧ backendProcess s' = backendProcess s
  ∧ liveWorkers s' = liveWorkers s
  ∧ ready s' pid = ready s pid || includes message readyMarker
  ∧ (∀ q, q ≠ pid → ready s' q = ready s q)
  ∧ (includes message readyMarker = false →
     isBackendReady s' = isBackendReady s).
Proof.
  intros s' notification.
  assert (Hcond : isErrorLine message = true ↔
            (includes message (str "ERROR") = true
             ∨ includes message (str "Warning") = true)
            ∧ includes message (str "INFO") = false).
  { unfold isErrorLine.
    rewrite andb_true_iff, orb_true_iff, negb_true_iff. done. }
  rewrite <- Hcond. clear Hcond.
  set (s1 := if includes message readyMarker && negb (ready s pid)
             then createOrShowWebviewPanel env (set_isBackendReady pid true s)
             else s).
  assert (Hs' : s' = if isErrorLine message then log notification s1 else s1)
    by reflexivity.
  assert (H1 : ∃ cs, calls s1 = calls s ++ cs
                     ∧ (∀ m, showErrorMessage m ∉ cs) ∧ (∀ p, kill p ∉ cs)).
  { subst s1. destruct (includes message readyMarker && negb (ready s pid)).
    - rewrite createOrShowWebviewPanel_calls. simpl. eexists. split; [done|].
      destruct (currentPanel s); split; intros ?; set_solver.
    - exists []. rewrite app_nil_r. split; [done|]. split; intros ?; set_solver. }
  destruct H1 as (cs & Hcs & Hnoerr & Hnokill).
  assert (Hem : emitted s s' = cs ++ if isErrorLine message then [notification] else []).
  { apply emitted_app. rewrite Hs'. destruct (isErrorLine message); simpl.
    - by rewrite Hcs, <- app_assoc.
    - by rewrite Hcs, app_nil_r. }
  assert (Hfields :
            backendProcess s1 = backendProcess s
            ∧ liveWorkers s1 = liveWorkers s
            ∧ ready s1 pid = ready s pid || includes message readyMarker
            ∧ (∀ q, q ≠ pid → ready s1 q = ready s q)).
  { subst s1. unfold ready.
    destruct (includes message readyMarker) eqn:Em; simpl.
    - destruct (default false (isBackendReady s !! pid)) eqn:Er; simpl.
      + rewrite Er. done.
      + unfold createOrShowWebviewPanel. simpl.
        destruct (currentPanel s); simpl; rewrite lookup_insert_eq;
          repeat split; try done; intros q Hq; by rewrite lookup_insert_ne.
    - rewrite orb_false_r. done. }
  assert (Hsame : backendProcess s' = backendProcess s1
                  ∧ liveWorkers s' = liveWorkers s1
                  ∧ isBackendReady s' = isBackendReady s1).
  { rewrite Hs'. by destruct (isErrorLine message). }
  destruct Hfields as (F1 & F2 & F3 & F4). destruct Hsame as (G1 & G2 & G3).
  repeat split.
  - rewrite Hem. intros [Hin|Hin]%elem_of_app; [by apply Hnoerr in Hin|].
    by destruct (isErrorLine message); [|set_solver].
  - intros Ht. rewrite Hem, Ht. set_solver.
  - rewrite Hem. intros m [Hin|Hin]%elem_of_app; [by apply Hnoerr in Hin|].
    destruct (isErrorLine message); set_solver.
  - rewrite Hem. intros p [Hin|Hin]%elem_of_app; [by apply Hnokill in Hin|].
    destruct (isErrorLine message); set_solver.
  - congruence.
  - congruence.
  - unfold ready in *. by rewrite G3.
  - intros q Hq. unfold ready in *. rewrite G3. by apply F4.
  - intros Hm. rewrite G3. subst s1. by rewrite Hm.
Qed.

(** C9, as stated, fails: with a panel open and no active editor,
    [createOrShowWebviewPanel] reveals the panel with no column, not with
    the default column; and with the active editor in the second column the
    start command reveals the panel in the first. *)
Lemma C9_counterexample :
  currentPanel readyState = Some 0%nat
  ∧ activeTextEditor noEditor = None
  ∧ emitted readyState (createOrShowWebviewPanel noEditor readyState)
    = [reveal 0 None]
  ∧ emitted readyState (createOrShowWebviewPanel noEditor readyState)
    ≠ [reveal 0 (Some (columnOrOne (activeColumn noEditor)))]
  ∧ activeColumn editorInTwo = Some Two
  ∧ emitted readyState (start editorInTwo readyState) = [reveal 0 (Some One)]
  ∧ emitted readyState (start editorInTwo readyState)
    ≠ [reveal 0 (Some (columnOrOne (activeColumn editorInTwo)))].
Proof. repeat split; done. Qed.

(** C9, amended: when a panel exists, [createOrShowWebviewPanel] creates
    no panel and reveals the existing one with the column of the active
    editor, or with no column when no editor is active, and the start command
    reveals it in the first column; the default column is used only when a
    panel is created. *)
Theorem C9_reveal_of_existing_panel env s :
  match currentPanel s with
  | Some panel =>
      createOrShowWebviewPanel env s = log (reveal panel (activeColumn env)) s
      ∧ start env s = log (reveal panel (Some One)) s
      ∧ emitted s (createOrShowWebviewPanel env s)
        = [reveal panel (activeColumn env)]
      ∧ emitted s (start env s) = [reveal panel (Some One)]
      ∧ currentPanel (createOrShowWebviewPanel env s) = Some panel
      ∧ openPanels (createOrShowWebviewPanel env s) = openPanels s
      ∧ created (createOrShowWebviewPanel env s) = created s
  | None =>
      emitted s (createOrShowWebviewPanel env s)
      = [createWebviewPanel (created s) (columnOrOne (activeColumn env));
         setHtml (created s) (Renderer.getWebviewContent (renderEnv env))]
  end.
Proof.
  destruct (currentPanel s) as [panel|] eqn:Ecp.
  - unfold createOrShowWebviewPanel, start. rewrite Ecp.
    repeat split; try done; by apply emitted_app.
  - apply emitted_app. rewrite createOrShowWebviewPanel_calls. by rewrite Ecp.
Qed.

(** The worker exits while the panel is open: the panel is disposed and a
    later start spawns a new worker. *)
Example exit_then_restart :
  ∃ s, run [CmdStart noEditor; StderrData 0 noEditor readyMarker;
            ProcessExit 0 (Some 1%Z) None; CmdStart noEditor] init = Some s
       ∧ calls s = [spawn 0; createWebviewPanel 0 One;
                    setHtml 0 (Renderer.getWebviewContent sampleRender);
                    dispose 0; spawn 1]
       ∧ backendProcess s = Some 1%nat
       ∧ currentPanel s = None.
Proof. eexists. split; [vm_compute; reflexivity|]. repeat split. Qed.


(** What an event adds to the log: a [kill] only at deactivation, and then
    one; a [spawn] only at a start. *)
Lemma step_calls e s :
  ∃ cs, calls (step e s) = calls s ++ cs
        ∧ (filter isKill cs = []
           ∨ e = Deactivate ∧ length (filter isKill cs) = 1%nat)
        ∧ (filter isSpawn cs = [] ∨ ∃ env, e = CmdStart env).
Proof.
  destruct s as [bp cp rdy lw op sp cr reg cs0].
  destruct e as [env|pid env msg|pid code sig|pid cause msg|panel|];
    cbn [step calls].
  - unfold start. cbn [currentPanel backendProcess].
    destruct cp as [panel|]; [eexists; split; [done|split; [by left|by left]]|].
    destruct bp.
    + rewrite createOrShowWebviewPanel_calls. eexists. split; [done|].
      split; by left.
    + destruct (exeExists env); simpl; eexists; split; try done;
        split; first [by left|right; by eexists].
  - unfold stderr_onData.
    destruct (includes msg readyMarker && negb _); destruct (isErrorLine msg);
      cbn [calls log]; rewrite ?createOrShowWebviewPanel_calls;
      cbn [calls set_isBackendReady currentPanel created];
      rewrite <- ?app_assoc.
    1,2,3: eexists; split; [done|]; destruct cp; split; by left.
    exists []. rewrite app_nil_r. split; [done|]. split; by left.
  - unfold onExit. simpl. destruct cp; simpl.
    + eexists. split; [done|]. split; by left.
    + exists []. rewrite app_nil_r. split; [done|]. split; by left.
  - destruct cause; simpl; eexists; (split; [done|]); split; by left.
  - exists []. simpl. rewrite app_nil_r. split; [done|]. split; by left.
  - unfold onDeactivate. destruct cp; destruct bp; simpl; rewrite <- ?app_assoc.
    1,2,3: eexists; split; [done|]; split; first [by left|by right].
    exists []. rewrite app_nil_r. split; [done|]. split; by left.
Qed.

Lemma step_registered e s :
  commandRegistered (step e s)
  = match e with Deactivate => false | _ => commandRegistered s end.
Proof.
  destruct s as [bp cp rdy lw op sp cr reg cs0].
  destruct e as [env|pid env msg|pid code sig|pid cause msg|panel|]; simpl.
  - unfold start, createOrShowWebviewPanel. simpl.
    destruct cp; [done|]. destruct bp; [done|]. by destruct (exeExists env).
  - unfold stderr_onData, createOrShowWebviewPanel. simpl.
    destruct (includes msg readyMarker && negb _); destruct (isErrorLine msg);
      destruct cp; done.
  - unfold onExit. simpl. by destruct cp.
  - by destruct cause.
  - done.
  - done.
Qed.

Lemma killedOnce_step e s :
  killedOnce s → enabled e s = true → killedOnce (step e s).
Proof.
  intros [Hlen Hreg] He. unfold killedOnce. rewrite step_registered.
  destruct (step_calls e s) as (cs & -> & [Hk|[-> Hk]] & _).
  - rewrite filter_app, Hk, app_nil_r. split; [done|].
    by destruct e.
  - simpl in He. rewrite filter_app, length_app, (Hreg He). simpl.
    split; [lia|done].
Qed.

(** X7: in a session [kill] is called at most once, and never while the
    command is still registered. *)
Theorem worker_killed_at_most_once s :
  reachable s →
  (length (filter isKill (calls s)) ≤ 1)%nat
  ∧ (commandRegistered s = true → filter isKill (calls s) = []).
Proof.
  intros [events H].
  assert (Hgen : ∀ s0, killedOnce s0 → run events s0 = Some s → killedOnce s).
  { clear H. induction events as [|e events IH]; intros s0 HS Hr; simpl in Hr.
    - by inversion Hr; subst.
    - destruct (enabled e s0) eqn:He; [|done].
      eapply IH; [|done]. by apply killedOnce_step. }
  apply (Hgen init); [|done]. split; simpl; [lia|done].
Qed.

(** X8: once the command is unregistered, whatever happens next, no worker
    is spawned. *)
Theorem no_spawn_after_deactivation events :
  ∀ s s',
    commandRegistered s = false →
    run events s = Some s' →
    commandRegistered s' = false
    ∧ ∀ pid, spawn pid ∈ calls s' → spawn pid ∈ calls s.
Proof.
  induction events as [|e events IH]; intros s s' Hreg Hr; simpl in Hr.
  - by inversion Hr; subst.
  - destruct (enabled e s) eqn:He; [|done].
    assert (Hreg' : commandRegistered (step e s) = false).
    { rewrite step_registered. by destruct e. }
    destruct (IH _ _ Hreg' Hr) as [Hr' Hs']. split; [done|].
    intros pid Hpid. apply Hs' in Hpid.
    destruct (step_calls e s) as (cs & Hcs & _ & [Hsp|[env ->]]).
    + rewrite Hcs in Hpid. apply elem_of_app in Hpid as [Hpid|Hpid]; [done|].
      assert (Hin : spawn pid ∈ filter isSpawn cs)
        by (by apply list_elem_of_filter).
      rewrite Hsp in Hin. by apply elem_of_nil in Hin.
    + simpl in He. congruence.
Qed.

(** X5: in every state of a session [currentPanel] names exactly the open
    panel; while the command is registered [backendProcess] names exactly
    the live worker, and afterwards it is cleared. *)
Theorem handles_name_live_objects s :
  reachable s →
  (∀ p, currentPanel s = Some p ↔ p ∈ openPanels s)
  ∧ (commandRegistered s = true →
     ∀ p, backendProcess s = Some p ↔ p ∈ liveWorkers s)
  ∧ (commandRegistered s = false → backendProcess s = None).
Proof.
  intros [HP HW HU _ _]%Inv_reachable. repeat split; try done.
  - by apply HP.
  - by apply HP.
  - by apply HW.
  - by apply HW.
Qed.

(** X9: the disposable of the deactivation disposes the panel if one is
    open, then kills the worker if one is known, clears both variables, and
    changes nothing when it runs again. *)
Theorem onDeactivate_clears_and_is_idempotent s :
  backendProcess (onDeactivate s) = None
  ∧ currentPanel (onDeactivate s) = None
  ∧ emitted s (onDeactivate s)
    = match currentPanel s with Some panel => [dispose panel] | None => [] end
      ++ match backendProcess s with Some pid => [kill pid] | None => [] end
  ∧ onDeactivate (onDeactivate s) = onDeactivate s.
Proof.
  destruct s as [bp cp rdy lw op sp cr reg cs].
  destruct cp as [panel|]; destruct bp as [pid|]; repeat split;
    apply emitted_app; simpl; by rewrite <- ?app_assoc, ?app_nil_r.
Qed.

Lemma createdAfterSpawn_app cs new :
  ∀ seen,
    createdAfterSpawn seen (cs ++ new)
    = createdAfterSpawn seen cs
      && createdAfterSpawn (seen || existsb isSpawn cs) new.
Proof.
  induction cs as [|c cs IH]; intros seen; simpl.
  - by rewrite orb_false_r.
  - rewrite IH. by rewrite <- andb_assoc, orb_assoc.
Qed.

Lemma existsb_isSpawn cs q : spawn q ∈ cs → existsb isSpawn cs = true.
Proof.
  intros H. apply existsb_exists. exists (spawn q). split; [|done].
  by apply list_elem_of_In.
Qed.

Lemma existsb_isSpawn_inv cs : existsb isSpawn cs = true → ∃ q, spawn q ∈ cs.
Proof.
  intros (c & Hin & Hc)%existsb_exists. destruct c; try done.
  eexists. by apply list_elem_of_In.
Qed.

Lemma SpawnedFirst_log c s :
  isCreate c = false → SpawnedFirst s → SpawnedFirst (log c s).
Proof.
  intros Hc [H1 H2]. split; simpl.
  - intros q Hq. apply elem_of_app. left. by apply H1.
  - rewrite createdAfterSpawn_app, H2. simpl. by rewrite Hc.
Qed.

Lemma SpawnedFirst_createOrShowWebviewPanel env s :
  (∃ q, spawn q ∈ calls s) →
  SpawnedFirst s → SpawnedFirst (createOrShowWebviewPanel env s).
Proof.
  intros [q0 Hq0] [H1 H2]. split.
  - intros q Hq. rewrite createOrShowWebviewPanel_calls.
    apply elem_of_app. left. apply H1.
    unfold createOrShowWebviewPanel in Hq. by destruct (currentPanel s).
  - rewrite createOrShowWebviewPanel_calls, createdAfterSpawn_app, H2.
    rewrite (existsb_isSpawn _ _ Hq0). by destruct (currentPanel s).
Qed.

Lemma SpawnedFirst_step e s :
  SpawnedFirst s → enabled e s = true → SpawnedFirst (step e s).
Proof.
  intros HS He.
  destruct e as [env|pid env msg|pid code sig|pid cause msg|panel|]; simpl in *.
  - unfold start. destruct (currentPanel s) as [panel|] eqn:Ecp.
    { by apply SpawnedFirst_log. }
    destruct (backendProcess s) as [pid|] eqn:Ebp.
    { apply SpawnedFirst_createOrShowWebviewPanel; [|done].
      exists pid. apply HS. by left. }
    destruct (exeExists env); simpl; [|by apply SpawnedFirst_log].
    destruct HS as [H1 H2]. split; simpl.
    + intros q [Hq|Hq].
      * inversion Hq; subst. set_solver.
      * apply elem_of_union in Hq as [Hq|Hq].
        -- apply elem_of_app. left. apply H1. by right.
        -- apply elem_of_singleton in Hq as ->. set_solver.
    + by rewrite createdAfterSpawn_app, H2.
  - apply bool_decide_eq_true in He. unfold stderr_onData.
    assert (HS' : SpawnedFirst
                    (if includes msg readyMarker && negb (ready s pid)
                     then createOrShowWebviewPanel env
                            (set_isBackendReady pid true s)
                     else s)).
    { destruct (includes msg readyMarker && negb (ready s pid)); [|done].
      apply SpawnedFirst_createOrShowWebviewPanel.
      - exists pid. simpl. apply HS. by right.
      - by destruct HS. }
    destruct (isErrorLine msg); [|done]. by apply SpawnedFirst_log.
  - destruct HS as [H1 H2]. unfold onExit. simpl.
    destruct (currentPanel s) as [panel|]; split; simpl.
    + intros q [Hq|Hq]; [done|]. apply elem_of_app. left. apply H1.
      right. set_solver.
    + by rewrite createdAfterSpawn_app, H2.
    + intros q [Hq|Hq]; [done|]. apply H1. right. set_solver.
    + done.
  - destruct HS as [H1 H2]. destruct cause; split; simpl.
    + intros q [Hq|Hq]; [done|]. apply elem_of_app. left. apply H1.
      right. set_solver.
    + by rewrite createdAfterSpawn_app, H2.
    + intros q [Hq|Hq]; [done|]. apply elem_of_app. left. apply H1. by right.
    + by rewrite createdAfterSpawn_app, H2.
  - destruct HS as [H1 H2]. split; simpl; [|done].
    intros q Hq. by apply H1.
  - destruct s as [bp cp rdy lw op sp cr reg cs].
    destruct HS as [H1 H2]. simpl in H1, H2. unfold onDeactivate.
    destruct cp as [panel|]; destruct bp as [pid|]; split; simpl;
      rewrite ?createdAfterSpawn_app, ?H2; try done.
    all: intros q [Hq|Hq]; [done|].
    all: rewrite ?elem_of_app; try (left; apply H1; by right).
    all: try (left; left; apply H1; by right).
    all: try (apply H1; by right).
Qed.

Lemma SpawnedFirst_reachable s : reachable s → SpawnedFirst s.
Proof.
  intros [events H].
  assert (Hgen : ∀ s0, SpawnedFirst s0 → run events s0 = Some s → SpawnedFirst s).
  { clear H. induction events as [|e events IH]; intros s0 HS Hr; simpl in Hr.
    - by inversion Hr; subst.
    - destruct (enabled e s0) eqn:He; [|done].
      eapply IH; [|done]. by apply SpawnedFirst_step. }
  apply (Hgen init); [|done]. split; simpl; [|done].
  intros q [Hq|Hq]; [done|set_solver].
Qed.

(** X6: in the log of a session every creation of a panel comes after the
    spawn of some worker. *)
Theorem panel_created_only_after_spawn s pre panel column post :
  reachable s →
  calls s = pre ++ createWebviewPanel panel column :: post →
  ∃ pid, spawn pid ∈ pre.
Proof.
  intros [_ H]%SpawnedFirst_reachable Hc.
  rewrite Hc, createdAfterSpawn_app in H.
  apply andb_true_iff in H as [_ H]. simpl in H.
  apply andb_true_iff in H as [H _]. by apply existsb_isSpawn_inv.
Qed.

Lemma closuresSpawned_createOrShowWebviewPanel env s :
  closuresSpawned s → closuresSpawned (createOrShowWebviewPanel env s).
Proof. unfold createOrShowWebviewPanel. by destruct (currentPanel s). Qed.

Lemma closuresSpawned_step e s :
  closuresSpawned s → enabled e s = true → closuresSpawned (step e s).
Proof.
  intros [HR HL] He.
  destruct e as [env|pid env msg|pid code sig|pid cause msg|panel|]; simpl in *.
  - unfold start. destruct (currentPanel s); [done|].
    destruct (backendProcess s);
      [by apply closuresSpawned_createOrShowWebviewPanel|].
    destruct (exeExists env); [|done]. split; simpl.
    + intros p Hp. destruct (decide (p = spawned s)) as [->|Hne]; [lia|].
      rewrite lookup_insert_ne in Hp by done. apply HR in Hp. lia.
    + intros p [Hp|Hp%elem_of_singleton]%elem_of_union; [|lia].
      apply HL in Hp. lia.
  - apply bool_decide_eq_true in He. unfold stderr_onData.
    assert (H' : closuresSpawned
                   (if includes msg readyMarker && negb (ready s pid)
                    then createOrShowWebviewPanel env
                           (set_isBackendReady pid true s)
                    else s)).
    { destruct (includes msg readyMarker && negb (ready s pid)); [|done].
      apply closuresSpawned_createOrShowWebviewPanel. split; simpl; [|done].
      intros p Hp. destruct (decide (p = pid)) as [->|Hne]; [by apply HL|].
      rewrite lookup_insert_ne in Hp by done. by apply HR. }
    by destruct (isErrorLine msg).
  - unfold onExit. simpl. destruct (currentPanel s); split; simpl; try done.
    all: intros p [Hp _]%elem_of_difference; by apply HL.
  - destruct cause; split; simpl; try done.
    intros p [Hp _]%elem_of_difference; by apply HL.
  - done.
  - unfold onDeactivate.
    destruct (currentPanel s); simpl; by destruct (backendProcess s).
Qed.

Lemma closuresSpawned_reachable s : reachable s → closuresSpawned s.
Proof.
  intros [events H].
  assert (Hgen : ∀ s0, closuresSpawned s0 → run events s0 = Some s →
                       closuresSpawned s).
  { clear H. induction events as [|e events IH]; intros s0 HS Hr; simpl in Hr.
    - by inversion Hr; subst.
    - destruct (enabled e s0) eqn:He; [|done].
      eapply IH; [|done]. by apply closuresSpawned_step. }
  apply (Hgen init); [|done]. split; simpl.
  - intros p [x Hp]. by rewrite lookup_empty in Hp.
  - intros p Hp. set_solver.
Qed.

Lemma ready_is_Some s pid : ready s pid = true → is_Some (isBackendReady s !! pid).
Proof. unfold ready. destruct (isBackendReady s !! pid); [eauto|done]. Qed.

Lemma ready_step e s pid :
  closuresSpawned s → ready s pid = true → ready (step e s) pid = true.
Proof.
  intros [HR _] Hr. pose proof (HR _ (ready_is_Some _ _ Hr)) as Hlt.
  unfold ready in *.
  destruct e as [env|p env msg|p code sig|p cause msg|panel|]; simpl.
  - unfold start, createOrShowWebviewPanel.
    destruct (currentPanel s); [done|].
    destruct (backendProcess s); [done|].
    destruct (exeExists env); [|done]. simpl.
    rewrite lookup_insert_ne by lia. done.
  - unfold stderr_onData, createOrShowWebviewPanel.
    destruct (includes msg readyMarker && negb _); destruct (isErrorLine msg);
      simpl; try done.
    all: destruct (currentPanel s); simpl.
    all: destruct (decide (p = pid)) as [->|Hne];
      [by rewrite lookup_insert_eq|by rewrite lookup_insert_ne].
  - unfold onExit. simpl. by destruct (currentPanel s).
  - by destruct cause.
  - done.
  - unfold onDeactivate.
    destruct (currentPanel s); simpl; by destruct (backendProcess s).
Qed.

(** Once ready, the listener of a worker no longer touches the panel. *)
Lemma stderr_onData_when_ready pid env msg s :
  ready s pid = true →
  stderr_onData pid env msg s
  = if isErrorLine msg
    then log (showErrorMessage (str "Lumi Backend Error: " ++ msg)) s
    else s.
Proof. intros H. unfold stderr_onData. by rewrite H, andb_false_r. Qed.

(** X10: once a worker is ready it stays so for the rest of the session,
    and its output, even with the readiness marker, neither creates nor
    reveals a panel. *)
Theorem readiness_is_detected_once events :
  ∀ s s' pid,
    reachable s →
    ready s pid = true →
    run events s = Some s' →
    ready s' pid = true
    ∧ ∀ env msg,
        filter isPanelCall (emitted s' (stderr_onData pid env msg s')) = []
        ∧ currentPanel (stderr_onData pid env msg s') = currentPanel s'.
Proof.
  induction events as [|e events IH]; intros s s' pid Hreach Hr Hrun;
    simpl in Hrun.
  - inversion Hrun; subst. split; [done|]. intros env msg.
    rewrite stderr_onData_when_ready by done.
    destruct (isErrorLine msg).
    + split; [|done].
      by rewrite (emitted_app s' (log _ s')
                    [showErrorMessage (str "Lumi Backend Error: " ++ msg)]).
    + split; [|done]. rewrite (emitted_app _ _ []); [done|by rewrite app_nil_r].
  - destruct (enabled e s) eqn:He; [|done].
    apply (IH (step e s)); [by apply reachable_step| |done].
    apply ready_step; [by apply closuresSpawned_reachable|done].
Qed.

(** X11: while the executable is missing, every start only shows the
    notification: nothing is spawned, no panel is created and the variables
    stay cleared, however often the command is invoked. *)
Theorem missing_executable_changes_nothing env n :
  ∀ s,
    exeExists env = false →
    commandRegistered s = true →
    currentPanel s = None →
    backendProcess s = None →
    ∃ s', run (repeat (CmdStart env) n) s = Some s'
          ∧ calls s' = calls s ++ repeat missingBinary n
          ∧ backendProcess s' = None
          ∧ currentPanel s' = None
          ∧ liveWorkers s' = liveWorkers s
          ∧ openPanels s' = openPanels s
          ∧ isBackendReady s' = isBackendReady s.
Proof.
  induction n as [|n IH]; intros s Hexe Hreg Hcp Hbp; simpl.
  - exists s. by rewrite app_nil_r.
  - rewrite Hreg. unfold start at 1. rewrite Hcp, Hbp, Hexe. simpl.
    destruct (IH (log missingBinary s) Hexe Hreg Hcp Hbp)
      as (s' & Hrun & Hcalls & ? & ? & ? & ? & ?).
    exists s'. repeat split; try done.
    rewrite Hcalls. simpl. by rewrite <- app_assoc.
Qed.

(** X12: when the worker cannot be launched, the [error] listener shows
    the message and clears [backendProcess], and leaves an open panel open.
    The next start then only reveals that panel; without a panel it spawns
    a new worker, or reports the missing executable. *)
Theorem launch_failure_keeps_panel s pid errMessage env :
  reachable s →
  commandRegistered s = true →
  backendProcess s = Some pid →
  let s1 := step (ProcessError pid SpawnFailed errMessage) s in
  backendProcess s1 = None
  ∧ liveWorkers s1 = ∅
  ∧ currentPanel s1 = currentPanel s
  ∧ openPanels s1 = openPanels s
  ∧ emitted s s1
    = [showErrorMessage (str "Failed to start Lumi backend: " ++ errMessage)]
  ∧ emitted s1 (step (CmdStart env) s1)
    = match currentPanel s with
      | Some panel => [reveal panel (Some One)]
      | None => if exeExists env then [spawn (spawned s)] else [missingBinary]
      end.
Proof.
  intros [_ HW _ _ _]%Inv_reachable Hreg Hbp s1. subst s1.
  repeat split.
  - simpl. apply set_eq. intros p. rewrite elem_of_difference, (HW Hreg p), Hbp.
    set_solver.
  - by apply emitted_app.
  - apply emitted_app. simpl. unfold start. simpl.
    destruct (currentPanel s); [done|]. by destruct (exeExists env).
Qed.

(** X13: after the user closed the panel, the start command creates a new
    panel for the worker that still runs, and spawns nothing. *)
Theorem closed_panel_is_reopened_without_spawn s pid panel env :
  reachable s →
  backendProcess s = Some pid →
  currentPanel s = Some panel →
  let s1 := step (PanelClosed panel) s in
  let s2 := step (CmdStart env) s1 in
  emitted s s1 = []
  ∧ emitted s1 s2
    = [createWebviewPanel (created s) (columnOrOne (activeColumn env));
       setHtml (created s) (Renderer.getWebviewContent (renderEnv env))]
  ∧ backendProcess s2 = Some pid
  ∧ liveWorkers s2 = liveWorkers s
  ∧ currentPanel s2 = Some (created s)
  ∧ openPanels s2 = {[created s]}.
Proof.
  intros [HP _ _ _ _]%Inv_reachable Hbp Hcp s1 s2. subst s1 s2.
  simpl. unfold start. simpl. rewrite Hbp.
  unfold createOrShowWebviewPanel. simpl.
  split; [apply emitted_app; by rewrite app_nil_r|].
  split; [apply emitted_app; simpl; by rewrite <- app_assoc|].
  do 3 (split; [done|]).
  apply set_eq. intros p. rewrite elem_of_union, elem_of_difference, HP, Hcp.
  set_solver.
Qed.

(** X14: the start command with the executable present, then a first output
    of the worker with the readiness marker: one spawn, then the panel, in
    the column of the active editor or the first, with the rendered
    document; the message is also notified when it is an error line. *)
Theorem start_then_readiness_opens_panel env1 env2 message :
  exeExists env1 = true →
  includes message readyMarker = true →
  ∃ s, run [CmdStart env1; StderrData 0 env2 message] init = Some s
       ∧ calls s
         = [spawn 0;
            createWebviewPanel 0 (columnOrOne (activeColumn env2));
            setHtml 0 (Renderer.getWebviewContent (renderEnv env2))]
           ++ (if isErrorLine message
               then [showErrorMessage (str "Lumi Backend Error: " ++ message)]
               else [])
       ∧ backendProcess s = Some 0%nat
       ∧ currentPanel s = Some 0%nat
       ∧ ready s 0 = true.
Proof.
  intros Hexe Hmsg.
  assert (Hstart : step (CmdStart env1) init
                   = mkState (Some 0%nat) None (<[0%nat := false]> ∅) (∅ ∪ {[0%nat]})
                       ∅ 1 0 true [spawn 0]).
  { simpl. unfold start. simpl. by rewrite Hexe. }
  cbn [run]. rewrite Hstart. cbn [enabled init commandRegistered liveWorkers].
  rewrite bool_decide_eq_true_2 by set_solver.
  cbn [step]. unfold stderr_onData, ready. cbn [isBackendReady].
  rewrite lookup_insert_eq, Hmsg. cbn [default negb andb].
  unfold createOrShowWebviewPanel. cbn [currentPanel set_isBackendReady].
  destruct (isErrorLine message); eexists; repeat split;
    unfold ready; simpl; by rewrite lookup_insert_eq.
Qed.

Lemma handles_name_live_objects_witness :
  (∀ p, currentPanel readyState = Some p ↔ p ∈ openPanels readyState)
  ∧ (commandRegistered readyState = true →
     ∀ p, backendProcess readyState = Some p ↔ p ∈ liveWorkers readyState)
  ∧ (commandRegistered readyState = false → backendProcess readyState = None).
Proof.
  apply (handles_name_live_objects readyState). apply reachable_readyState.
Defined.

Lemma panel_created_only_after_spawn_witness :
  ∃ pid, spawn pid ∈ [spawn 0].
Proof.
  apply (panel_created_only_after_spawn readyState [spawn 0] 0 One
           [setHtml 0 (Renderer.getWebviewContent sampleRender)]);
    [apply reachable_readyState|reflexivity].
Defined.

Lemma reachable_deactivatedState : reachable deactivatedState.
Proof.
  exists [CmdStart noEditor; StderrData 0 noEditor readyMarker; Deactivate].
  reflexivity.
Qed.

Lemma worker_killed_at_most_once_witness :
  (length (filter isKill (calls deactivatedState)) ≤ 1)%nat
  ∧ (commandRegistered deactivatedState = true →
     filter isKill (calls deactivatedState) = []).
Proof.
  apply (worker_killed_at_most_once deactivatedState).
  apply reachable_deactivatedState.
Defined.

Lemma no_spawn_after_deactivation_witness :
  commandRegistered (step (ProcessExit 0 None None) deactivatedState) = false
  ∧ ∀ pid,
      spawn pid ∈ calls (step (ProcessExit 0 None None) deactivatedState) →
      spawn pid ∈ calls deactivatedState.
Proof.
  apply (no_spawn_after_deactivation [ProcessExit 0 None None]
           deactivatedState); reflexivity.
Defined.

Lemma readiness_is_detected_once_witness :
  ready (step (StderrData 0 editorInTwo readyMarker) readyState) 0 = true
  ∧ ∀ env msg,
      filter isPanelCall
        (emitted (step (StderrData 0 editorInTwo readyMarker) readyState)
           (stderr_onData 0 env msg
              (step (StderrData 0 editorInTwo readyMarker) readyState)))
      = []
      ∧ currentPanel
          (stderr_onData 0 env msg
             (step (StderrData 0 editorInTwo readyMarker) readyState))
        = currentPanel (step (StderrData 0 editorInTwo readyMarker) readyState).
Proof.
  apply (readiness_is_detected_once [StderrData 0 editorInTwo readyMarker]
           readyState); [apply reachable_readyState|reflexivity..].
Defined.

Lemma missing_executable_changes_nothing_witness :
  ∃ s', run (repeat (CmdStart noExecutable) 3) init = Some s'
        ∧ calls s' = calls init ++ repeat missingBinary 3
        ∧ backendProcess s' = None
        ∧ currentPanel s' = None
        ∧ liveWorkers s' = liveWorkers init
        ∧ openPanels s' = openPanels init
        ∧ isBackendReady s' = isBackendReady init.
Proof.
  apply (missing_executable_changes_nothing noExecutable 3 init); reflexivity.
Defined.

Lemma reachable_startedTwice : reachable startedTwice.
Proof. exists [CmdStart noEditor; CmdStart noEditor]. reflexivity. Qed.

Lemma launch_failure_keeps_panel_witness :
  backendProcess (step (ProcessError 0 SpawnFailed (str "EACCES")) startedTwice)
  = None
  ∧ liveWorkers (step (ProcessError 0 SpawnFailed (str "EACCES")) startedTwice)
    = ∅
  ∧ currentPanel (step (ProcessError 0 SpawnFailed (str "EACCES")) startedTwice)
    = currentPanel startedTwice
  ∧ openPanels (step (ProcessError 0 SpawnFailed (str "EACCES")) startedTwice)
    = openPanels startedTwice
  ∧ emitted startedTwice
      (step (ProcessError 0 SpawnFailed (str "EACCES")) startedTwice)
    = [showErrorMessage (str "Failed to start Lumi backend: " ++ str "EACCES")]
  ∧ emitted (step (ProcessError 0 SpawnFailed (str "EACCES")) startedTwice)
      (step (CmdStart noEditor)
         (step (ProcessError 0 SpawnFailed (str "EACCES")) startedTwice))
    = match currentPanel startedTwice with
      | Some panel => [reveal panel (Some One)]
      | None =>
          if exeExists noEditor then [spawn (spawned startedTwice)]
          else [missingBinary]
      end.
Proof.
  apply (launch_failure_keeps_panel startedTwice 0 (str "EACCES") noEditor);
    [apply reachable_startedTwice|reflexivity..].
Defined.

Lemma closed_panel_is_reopened_witness :
  emitted readyState (step (PanelClosed 0) readyState) = []
  ∧ emitted (step (PanelClosed 0) readyState)
      (step (CmdStart editorInTwo) (step (PanelClosed 0) readyState))
    = [createWebviewPanel (created readyState)
         (columnOrOne (activeColumn editorInTwo));
       setHtml (created readyState)
         (Renderer.getWebviewContent (renderEnv editorInTwo))]
  ∧ backendProcess
      (step (CmdStart editorInTwo) (step (PanelClosed 0) readyState))
    = Some 0%nat
  ∧ liveWorkers (step (CmdStart editorInTwo) (step (PanelClosed 0) readyState))
    = liveWorkers readyState
  ∧ currentPanel (step (CmdStart editorInTwo) (step (PanelClosed 0) readyState))
    = Some (created readyState)
  ∧ openPanels (step (CmdStart editorInTwo) (step (PanelClosed 0) readyState))
    = {[created readyState]}.
Proof.
  apply (closed_panel_is_reopened_without_spawn readyState 0 0 editorInTwo);
    [apply reachable_readyState|reflexivity..].
Defined.

Lemma start_then_readiness_witness :
  ∃ s, run [CmdStart noEditor; StderrData 0 editorInTwo readyMarker] init
       = Some s
       ∧ calls s
         = [spawn 0;
            createWebviewPanel 0 (columnOrOne (activeColumn editorInTwo));
            setHtml 0 (Renderer.getWebviewContent (renderEnv editorInTwo))]
           ++ (if isErrorLine readyMarker
               then [showErrorMessage
                       (str "Lumi Backend Error: " ++ readyMarker)]
               else [])
       ∧ backendProcess s = Some 0%nat
       ∧ currentPanel s = Some 0%nat
       ∧ ready s 0 = true.
Proof.
  apply (start_then_readiness_opens_panel noEditor editorInTwo readyMarker);
    reflexivity.
Defined.

End ExtensionFacts.

(** ** The chat relay *)

Module ChatFacts.
Import Js Chat.

Lemma handleSend_accepts st :
  trim (input st) ≠ [] → isLoading st = false →
  handleSend st
  = mkState [] (messages st ++ [userEntry (input st)]) true
      (outstanding st ++ [input st]).
Proof.
  intros Hin Hl. unfold handleSend.
  rewrite bool_decide_eq_false_2 by done. by rewrite Hl.
Qed.

Lemma handleSend_rejects st :
  trim (input st) = [] ∨ isLoading st = true → handleSend st = st.
Proof.
  intros [Hin|Hl]; unfold handleSend.
  - by rewrite bool_decide_eq_true_2.
  - rewrite Hl. by rewrite orb_true_r.
Qed.

Lemma run_app a b st :
  run (a ++ b) st = match run a st with Some st' => run b st' | None => None end.
Proof.
  revert st. induction a as [|e a IH]; intros st; simpl; [done|].
  destruct (enabled e st); [|done]. destruct (step e st); [|done]. apply IH.
Qed.

(** While a request is outstanding, editing and sending change neither the
    conversation nor the flag nor the requests. *)
Lemma run_while_loading between :
  ∀ st, isLoading st = true → forallb (λ e, negb (isSettled e)) between = true →
  ∃ st', run between st = Some st'
         ∧ messages st' = messages st ∧ isLoading st' = true
         ∧ outstanding st' = outstanding st.
Proof.
  induction between as [|e between IH]; intros st Hl Hb; simpl in *.
  - by exists st.
  - apply andb_true_iff in Hb as [He Hb].
    destruct e as [value| |o]; simpl in *; [| |done].
    + destruct (IH (setInput value st) Hl Hb) as (st' & ? & ? & ? & ?).
      by exists st'.
    + rewrite handleSend_rejects by (by right). by apply IH.
Qed.

(** What a settled request leaves: one more entry, of the assistant and
    rendered, the flag cleared and the request gone. *)
Lemma handleSend_settled_inv o st st' :
  handleSend_settled o st = Some st' →
  ∃ m, isUser m = false ∧ renders m = true
       ∧ st' = mkState (input st) (messages st ++ [m]) false
                 (tl (outstanding st)).
Proof.
  unfold handleSend_settled. intros H.
  assert (Hup : ∃ m, isUser m = false
                     ∧ match o with
                       | parsed data => successUpdate data
                       | _ => errorUpdate
                       end (messages st) = Some (messages st ++ [m])).
  { destruct o as [| |data]; try (by exists errorEntry).
    unfold successUpdate in *.
    destruct (getMember data (str "message")); [|done].
    destruct (getMember data (str "results")); [|done].
    eexists. split; [|reflexivity]. reflexivity. }
  destruct Hup as (m & Hm & Hup). rewrite Hup in H.
  rewrite drop_app_length in H. simpl in H. rewrite andb_true_r in H.
  destruct (renders m) eqn:Hr; [|done].
  exists m. by inversion H.
Qed.

Lemma handleSend_settled_failure o st :
  isFailure o = true →
  handleSend_settled o st
  = Some (mkState (input st) (messages st ++ [errorEntry]) false
            (tl (outstanding st))).
Proof.
  intros Ho. unfold handleSend_settled.
  destruct o; [| |done]; unfold errorUpdate; by rewrite drop_app_length.
Qed.

Lemma singleFlight_step e st st' :
  singleFlight st → enabled e st = true → step e st = Some st' → singleFlight st'.
Proof.
  intros [Hlen Hiff] He Hs. destruct e as [value| |o]; simpl in *.
  - inversion Hs; subst. done.
  - inversion Hs; subst. unfold handleSend.
    destruct (bool_decide (trim (input st) = []) || isLoading st) eqn:E; [done|].
    apply orb_false_iff in E as [_ El].
    assert (outstanding st = []) as ->.
    { destruct (outstanding st); [done|]. destruct Hiff as [_ H].
      rewrite H in El; done. }
    split; simpl; [lia|done].
  - apply handleSend_settled_inv in Hs as (m & _ & _ & ->). split; simpl.
    + destruct (outstanding st); simpl in *; lia.
    + destruct (outstanding st) as [|? [|]]; simpl in *; [done|done|lia].
Qed.

Lemma singleFlight_run events :
  ∀ st st', singleFlight st → run events st = Some st' → singleFlight st'.
Proof.
  induction events as [|e events IH]; intros st st' H Hr; simpl in Hr.
  - by inversion Hr; subst.
  - destruct (enabled e st) eqn:He; [|done].
    destruct (step e st) as [st1|] eqn:Hs; [|done].
    eapply IH; [|done]. by eapply singleFlight_step.
Qed.

(** C5: a send is accepted (the user entry is appended, the request is
    issued and the flag is set) exactly when the input is not empty once
    trimmed and the flag is not set; a send that is not accepted changes
    nothing. In every state of a session the flag is set exactly when a
    request is outstanding. *)
Theorem C5_send_accepted_iff st :
  let accepted :=
    messages (handleSend st) = messages st ++ [userEntry (input st)]
    ∧ outstanding (handleSend st) = outstanding st ++ [input st]
    ∧ isLoading (handleSend st) = true in
  (accepted ↔ trim (input st) ≠ [] ∧ isLoading st = false)
  ∧ (accepted ∨ handleSend st = st)
  ∧ (∀ events st', run events init = Some st' → singleFlight st').
Proof.
  intros accepted. subst accepted.
  assert (Hgrow : ∀ (l : list ChatMessage) x, l ≠ l ++ [x]).
  { intros l x Hm. apply (f_equal length) in Hm.
    rewrite length_app in Hm. simpl in Hm. lia. }
  split; [|split].
  - split.
    + intros (Hm & _). split.
      * intros Hin. rewrite handleSend_rejects in Hm by (by left).
        by apply Hgrow in Hm.
      * destruct (isLoading st) eqn:Hl; [|done].
        rewrite handleSend_rejects in Hm by (by right). by apply Hgrow in Hm.
    + intros [Hin Hl]. by rewrite handleSend_accepts.
  - destruct (decide (trim (input st) = [])) as [Hin|Hin].
    { right. apply handleSend_rejects. by left. }
    destruct (isLoading st) eqn:Hl.
    { right. apply handleSend_rejects. by right. }
    left. by rewrite handleSend_accepts.
  - intros events st' Hr. eapply singleFlight_run; [|done].
    split; simpl; [lia|]. split; [done|]. intros H. by destruct H.
Qed.

(** C6: when the request of an accepted send fails, because [fetch] or
    [res.json()] rejects, the conversation is the one before the send with
    the user entry and then the one fixed error entry, whatever the user
    edited or tried to send in between; nothing is thrown, the flag is
    cleared, and a later send of a text that is not blank is accepted. *)
Theorem C6_failure_appends_error_entry st o between :
  isFailure o = true →
  trim (input st) ≠ [] →
  isLoading st = false →
  forallb (λ e, negb (isSettled e)) between = true →
  ∃ st',
    run (Send :: between ++ [Settled o]) st = Some st'
    ∧ messages st' = messages st ++ [userEntry (input st); errorEntry]
    ∧ isLoading st' = false
    ∧ ∀ value, trim value ≠ [] →
        handleSend (setInput value st')
        = mkState [] (messages st' ++ [userEntry value]) true
            (outstanding st' ++ [value]).
Proof.
  intros Ho Hin Hl Hb.
  change (Send :: between ++ [Settled o]) with ([Send] ++ between ++ [Settled o]).
  rewrite run_app. simpl. rewrite handleSend_accepts by done.
  rewrite run_app.
  set (st0 := mkState [] (messages st ++ [userEntry (input st)]) true
                (outstanding st ++ [input st])).
  destruct (run_while_loading between st0 eq_refl Hb)
    as (st1 & -> & Hm & Hl1 & Hout).
  simpl in *. rewrite Hout.
  rewrite bool_decide_eq_false_2 by (by destruct (outstanding st)). simpl.
  rewrite handleSend_settled_failure by done. rewrite Hm.
  eexists. repeat split; simpl;
    [by rewrite <- app_assoc|intros value Hv; by rewrite handleSend_accepts].
Qed.

(** C6 for a request that [fetch] rejects. *)
Lemma C6_failure_witness :
  ∃ st',
    run (Send :: [SetInput (str "again"); Send] ++ [Settled fetchRejected])
      (setInput (str "find empty folders") init) = Some st'
    ∧ messages st'
      = messages (setInput (str "find empty folders") init)
        ++ [userEntry (str "find empty folders"); errorEntry]
    ∧ isLoading st' = false
    ∧ ∀ value, trim value ≠ [] →
        handleSend (setInput value st')
        = mkState [] (messages st' ++ [userEntry value]) true
            (outstanding st' ++ [value]).
Proof.
  apply (C6_failure_appends_error_entry
           (setInput (str "find empty folders") init) fetchRejected
           [SetInput (str "again"); Send]); [reflexivity|by vm_compute|reflexivity..].
Defined.

(** C10 fails on the code: the body [null] parses as JSON, and no entry is
    appended for it. The function given to [setMessages] reads
    [data.message] when React renders, outside of the [try], so the
    [TypeError] is not caught and the component is unmounted. The same
    happens when the entry cannot be rendered: a [message] that is an
    object, [results] that is a string, or a list of results with [null]. *)
Theorem C10_parsed_body_without_entry :
  handleSend_settled (parsed null) loadingState = None
  ∧ handleSend_settled
      (parsed (object [(str "message",
                        object [(str "a", number (finite false 1 0))])]))
      loadingState = None
  ∧ handleSend_settled
      (parsed (object [(str "message", string (str "ok"));
                       (str "results", string (str "abc"))]))
      loadingState = None
  ∧ handleSend_settled
      (parsed (object [(str "message", string (str "ok"));
                       (str "results", array [null])]))
      loadingState = None.
Proof. repeat split. Qed.



(** A blank input is not sent, and nothing is sent while a request is
    outstanding. *)
Example blank_send_rejected :
  handleSend (setInput [32; 9; 10; 12288] init) = setInput [32; 9; 10; 12288] init.
Proof. reflexivity. Qed.

Example second_send_rejected :
  handleSend (setInput (str "again") loadingState)
  = setInput (str "again") loadingState.
Proof. reflexivity. Qed.

(** The scenario of a question and its answer: the greeting, the user entry
    and the assistant entry with the message and one result, in this order. *)
Example question_and_answer :
  let question := [48712; 32; 54260; 45908; 32; 52286; 50500; 51480] in
  let found := [object [(str "name", string (str "tmp"));
                        (str "path", string (str "/tmp"))]] in
  let body := object [(str "message", string (str "3 empty folders found"));
                      (str "results", array found)] in
  run [SetInput question; Send; Settled (parsed body)] init
  = Some (mkState [] [greeting; userEntry question;
                      successEntry (string (str "3 empty folders found"))
                        (array found)]
            false []).
Proof. reflexivity. Qed.


(** What an event appends to the conversation. *)
Lemma step_messages e st st' :
  step e st = Some st' → ∃ more, messages st' = messages st ++ more.
Proof.
  destruct e as [value| |o]; simpl; intros H.
  - inversion H; subst. exists []. by rewrite app_nil_r.
  - inversion H; subst. unfold handleSend.
    destruct (bool_decide _ || isLoading st); simpl; [|by eexists].
    exists []. by rewrite app_nil_r.
  - apply handleSend_settled_inv in H as (m & _ & _ & ->). by eexists.
Qed.

(** X15: whatever happens in the webview, the conversation only grows at
    its end: the entries it had stay where they were and as they were. *)
Theorem conversation_is_append_only events :
  ∀ st st', run events st = Some st' →
            ∃ more, messages st' = messages st ++ more.
Proof.
  induction events as [|e events IH]; intros st st' H; simpl in H.
  - inversion H; subst. exists []. by rewrite app_nil_r.
  - destruct (enabled e st); [|done].
    destruct (step e st) as [st1|] eqn:Hs; [|done].
    destruct (step_messages _ _ _ Hs) as [m1 H1].
    destruct (IH _ _ H) as [m2 H2].
    exists (m1 ++ m2). by rewrite H2, H1, <- app_assoc.
Qed.

Lemma conversation_is_append_only_witness :
  ∃ more, messages loadingState = messages init ++ more.
Proof.
  apply (conversation_is_append_only
           [SetInput (str "find empty folders"); Send] init loadingState).
  reflexivity.
Defined.

Lemma alternates_snoc ms m :
  ∀ userNext,
    alternates userNext (ms ++ [m])
    = alternates userNext ms
      && eqb (isUser m) (xorb userNext (Nat.odd (length ms))).
Proof.
  induction ms as [|m0 ms IH]; intros userNext; simpl length.
  - simpl. by rewrite xorb_false_r, andb_true_r.
  - cbn [app alternates]. rewrite IH, Nat.odd_succ, <- Nat.negb_odd.
    rewrite <- andb_assoc. do 2 f_equal.
    by destruct userNext, (Nat.odd (length ms)).
Qed.

Lemma dialogue_step e st st' :
  singleFlight st → dialogue st → enabled e st = true →
  step e st = Some st' → dialogue st'.
Proof.
  intros [_ Hsf] [Halt Hpar] He Hs. destruct e as [value| |o]; simpl in *.
  - inversion Hs; subst. split; simpl; done.
  - inversion Hs; subst. unfold handleSend.
    destruct (bool_decide _ || isLoading st) eqn:E; [done|].
    apply orb_false_iff in E as [_ El]. split; simpl.
    + rewrite alternates_snoc, Halt. simpl.
      rewrite <- Nat.negb_even, Hpar, El. done.
    + rewrite length_app. simpl. rewrite Nat.add_1_r, Nat.even_succ.
      by rewrite <- Nat.negb_even, Hpar, El.
  - assert (Hl : isLoading st = true).
    { apply Hsf. intros Hout. by rewrite Hout in He. }
    assert (Hbot : ∃ m, isUser m = false ∧
                        st' = mkState (input st) (messages st ++ [m]) false
                                (tl (outstanding st))).
    { apply handleSend_settled_inv in Hs as (m & Hm & _ & ->). by exists m. }
    destruct Hbot as (m & Hm & ->). split; simpl.
    + rewrite alternates_snoc, Halt, Hm. simpl.
      rewrite <- Nat.negb_even, Hpar, Hl. done.
    + rewrite length_app. simpl. rewrite Nat.add_1_r, Nat.even_succ.
      by rewrite <- Nat.negb_even, Hpar, Hl.
Qed.

(** X16: in every state of a session the conversation alternates between
    the assistant and the user, from the greeting on, and its last entry is
    the user's exactly while a request is outstanding. *)
Theorem conversation_alternates events st :
  run events init = Some st →
  alternates false (messages st) = true
  ∧ Nat.even (length (messages st)) = isLoading st.
Proof.
  assert (Hgen : ∀ st0, singleFlight st0 → dialogue st0 →
                        run events st0 = Some st → dialogue st).
  { induction events as [|e events IH]; intros st0 Hsf Hd Hr; simpl in Hr.
    - by inversion Hr; subst.
    - destruct (enabled e st0) eqn:He; [|done].
      destruct (step e st0) as [st1|] eqn:Hs; [|done].
      eapply IH; [| |done].
      + by eapply singleFlight_step.
      + by eapply dialogue_step. }
  intros Hr. apply (Hgen init); [| |done].
  - split; simpl; [lia|]. split; [done|]. intros H. by destruct H.
  - by split.
Qed.

Lemma trimStart_nil s : trimStart s = [] ↔ forallb isTrimmed s = true.
Proof.
  induction s as [|c s IH]; simpl; [done|].
  destruct (isTrimmed c); simpl; [done|]. split; done.
Qed.

Lemma trimStart_keeps s c :
  isTrimmed c = false → c ∈ s → trimStart s ≠ [].
Proof.
  intros Hc. induction s as [|d s IH]; intros Hin; simpl.
  - by apply elem_of_nil in Hin.
  - destruct (isTrimmed d) eqn:Hd; [|done].
    apply IH. apply elem_of_cons in Hin as [->|Hin]; [congruence|done].
Qed.

Lemma trimStart_head s c r : trimStart s = c :: r → isTrimmed c = false.
Proof.
  induction s as [|d s IH]; simpl; [done|].
  destruct (isTrimmed d) eqn:Hd; [done|]. intros H. by inversion H; subst.
Qed.

Lemma trim_nil s : trim s = [] ↔ forallb isTrimmed s = true.
Proof.
  rewrite <- trimStart_nil. unfold trim, trimEnd. split.
  - intros H. destruct (trimStart s) as [|c r] eqn:E; [done|].
    exfalso. apply (f_equal (@rev N)) in H. rewrite rev_involutive in H.
    simpl in H. revert H. apply (trimStart_keeps _ c).
    + by eapply trimStart_head.
    + apply elem_of_app. right. apply elem_of_cons. by left.
  - intros ->. done.
Qed.

(** X17: a send changes nothing exactly when the input consists of white
    space and line terminators only (or is empty), or a request is
    outstanding. *)
Theorem blank_input_is_never_sent st :
  handleSend st = st
  ↔ forallb isTrimmed (input st) = true ∨ isLoading st = true.
Proof.
  rewrite <- trim_nil. split.
  - intros H. destruct (decide (trim (input st) = [])) as [|Hin]; [by left|].
    destruct (isLoading st) eqn:Hl; [by right|].
    rewrite handleSend_accepts in H by done.
    apply (f_equal (λ x, length (messages x))) in H. simpl in H.
    rewrite length_app in H. simpl in H. lia.
  - apply handleSend_rejects.
Qed.

Lemma conversation_alternates_witness :
  alternates false (messages loadingState) = true
  ∧ Nat.even (length (messages loadingState)) = isLoading loadingState.
Proof.
  apply (conversation_alternates
           [SetInput (str "find empty folders"); Send] loadingState).
  reflexivity.
Defined.

(** The entries of every state of a session have been rendered. *)
Lemma session_entries_render events :
  ∀ st st',
    forallb renders (messages st) = true →
    run events st = Some st' →
    forallb renders (messages st') = true.
Proof.
  induction events as [|e events IH]; intros st st' Hst Hr; simpl in Hr.
  - by inversion Hr; subst.
  - destruct (enabled e st); [|done].
    destruct (step e st) as [st1|] eqn:Hs; [|done].
    apply (IH st1); [|done].
    destruct e as [value| |o]; simpl in Hs.
    + by inversion Hs; subst.
    + inversion Hs; subst. unfold handleSend.
      destruct (bool_decide _ || isLoading st); [done|]. simpl.
      by rewrite forallb_app, Hst.
    + apply handleSend_settled_inv in Hs as (m & _ & Hm & ->). simpl.
      by rewrite forallb_app, Hst; simpl; rewrite Hm.
Qed.

End ChatFacts.
